(** * img2char: batch pipeline and resumable weight download

    A shallow embedding of

    - [scripts/03_generate_characters/pipeline.py]
      (work item discovery, output directories, the three stage adapters,
      the per-item runner [process_single] and the batch driver [main]);
    - [scripts/03_generate_characters/scripts/download_weights.py]
      (the chunked, resumable fetcher [download_with_resume]).

    Python exceptions are values of [result]; the file system, the network
    and the external engines are explicit arguments.  Console output is not
    part of the model. *)

From Stdlib Require Import ZArith Lia Ascii List Sorting.Sorted.
From stdpp Require Import gmap strings list pretty.

Local Open Scope Z_scope.

(** ** Python results and exceptions *)

Inductive exn_kind : Type :=
  | ValueError
  | RuntimeError
  | FileNotFoundError.

Record exn : Type := Exn { exn_type : exn_kind; exn_msg : string }.

Inductive result (A : Type) : Type :=
  | Return (a : A)
  | Raise (e : exn).

Arguments Return {A} a.
Arguments Raise {A} e.

(** ** pathlib.PurePosixPath, as far as the two scripts use it *)

Module PathLib.

(** A path is its anchor (["/"] or none) and its components.  pathlib keeps
    no empty and no ["."] component. *)
Record Path : Type := mkPath { anchored : bool; parts : list string }.

#[global] Instance Path_eq_dec : EqDecision Path.
Proof. solve_decision. Defined.

#[global] Instance Path_countable : Countable Path.
Proof.
  refine (inj_countable' (fun p => (anchored p, parts p))
                         (fun x => mkPath (fst x) (snd x)) _).
  intros [a ps]; reflexivity.
Defined.

(** [sep.join(ps)] *)
Fixpoint join (sep : string) (ps : list string) : string :=
  match ps with
  | [] => ""
  | [p] => p
  | p :: ps' => p +:+ sep +:+ join sep ps'
  end.

(** [str(path)] *)
Definition str (p : Path) : string :=
  match anchored p, parts p with
  | true, ps => "/" +:+ join "/" ps
  | false, [] => "."
  | false, ps => join "/" ps
  end.

(** [path.name]: the last component, [''] when there is none. *)
Definition name (p : Path) : string := List.last (parts p) "".

(** [s.rfind(c)], [None] for [-1]. *)
Fixpoint rfind (c : ascii) (s : string) : option nat :=
  match s with
  | EmptyString => None
  | String a s' =>
      match rfind c s' with
      | Some i => Some (S i)
      | None => if decide (a = c) then Some 0%nat else None
      end
  end.

(** The test [0 < i < len(name) - 1] of [suffix] and [stem]. *)
Definition splits_at (nm : string) : option nat :=
  match rfind "."%char nm with
  | Some i =>
      if (0 <? Z.of_nat i) && (Z.of_nat i <? Z.of_nat (String.length nm) - 1)
      then Some i else None
  | None => None
  end.

Definition suffix_of_name (nm : string) : string :=
  match splits_at nm with
  | Some i => String.substring i (String.length nm - i) nm
  | None => ""
  end.

Definition stem_of_name (nm : string) : string :=
  match splits_at nm with
  | Some i => String.substring 0 i nm
  | None => nm
  end.

Definition suffix (p : Path) : string := suffix_of_name (name p).
Definition stem (p : Path) : string := stem_of_name (name p).

(** [path.parent]; a path without components is its own parent. *)
Definition parent (p : Path) : Path :=
  match parts p with
  | [] => p
  | ps => mkPath (anchored p) (removelast ps)
  end.

(** [p / q] for a path [q]: an anchored right operand replaces [p]. *)
Definition joinpath (p q : Path) : Path :=
  if anchored q then q else mkPath (anchored p) (parts p ++ parts q).

(** [p / s] for one segment [s] (a string without separator, which is all
    the scripts pass): pathlib drops an empty or ["."] segment. *)
Definition joinseg (p : Path) (s : string) : Path :=
  if bool_decide (s = "" \/ s = ".") then p
  else mkPath (anchored p) (parts p ++ [s]).

(** [path.with_name(nm)]: needs a name to replace. *)
Definition with_name (p : Path) (nm : string) : result Path :=
  match parts p with
  | [] => Raise (Exn ValueError "path has an empty name")
  | ps => Return (mkPath (anchored p) (removelast ps ++ [nm]))
  end.

(** [path.with_suffix(sfx)] for a suffix that starts with a dot: the old
    suffix is cut off the name and [sfx] put in its place. *)
Definition with_suffix (p : Path) (sfx : string) : result Path :=
  match parts p with
  | [] => Raise (Exn ValueError "path has an empty name")
  | _ => with_name p (stem p +:+ sfx)
  end.

Fixpoint strip_prefix (pre l : list string) : option (list string) :=
  match pre, l with
  | [], _ => Some l
  | a :: pre', b :: l' => if decide (a = b) then strip_prefix pre' l' else None
  | _ :: _, [] => None
  end.

(** [self.relative_to(other)]: [other] must be [self] or one of its
    parents, otherwise [ValueError]. *)
Definition relative_to (self other : Path) : result Path :=
  if bool_decide (anchored self = anchored other) then
    match strip_prefix (parts other) (parts self) with
    | Some rest => Return (mkPath false rest)
    | None => Raise (Exn ValueError "not in the subpath")
    end
  else Raise (Exn ValueError "not in the subpath").

End PathLib.

Export PathLib.

Notation "p </> s" := (joinseg p s) (at level 40, left associativity).

(** ** download_weights.py: the resumable fetcher *)

Module Fetcher.

(** The regular files the fetcher touches, by path, with their content. *)
Abbreviation FS := (gmap Path (list Byte.byte)).

(** [p.stat().st_size if p.exists() else 0] *)
Definition size_or_zero (fs : FS) (p : Path) : Z :=
  match fs !! p with
  | Some data => Z.of_nat (length data)
  | None => 0
  end.

(** [src.rename(dst)]: on POSIX an existing [dst] is replaced. *)
Definition rename (src dst : Path) (fs : FS) : result FS :=
  match fs !! src with
  | Some data => Return (<[dst := data]> (delete src fs))
  | None => Raise (Exn FileNotFoundError (str src))
  end.

(** What the server answers to the HEAD probe: the request fails with
    [URLError], or the headers arrive with the Content-Length header
    absent, empty, a number, or something [int] rejects. *)
Inductive content_length : Type :=
  | NoHeader
  | EmptyHeader
  | Digits (n : Z)
  | Garbage.

Inductive head_response : Type :=
  | HeadURLError
  | HeadHeaders (cl : content_length).

(** What the server answers to one ranged GET.  [pieces] are the
    successive results of [resp.read(read_chunk)]; after them [read]
    returns [b""] ([Body]) or raises ([ReadError]).  [ConnectError] is
    [urlopen] raising before the partial file is opened. *)
Inductive response : Type :=
  | ConnectError
  | ReadError (pieces : list (list Byte.byte))
  | Body (pieces : list (list Byte.byte)).

Inductive event : Type :=
  | Head (url : string)
  | Get (url : string) (range_start range_end : Z)
  | Sleep (seconds : Z)
  | Unlink (p : Path)
  | Rename (src dst : Path)
  | Mkdir (p : Path).

Definition is_network_request (e : event) : bool :=
  match e with
  | Head _ | Get _ _ _ => true
  | _ => false
  end.

Definition is_get (e : event) : bool :=
  match e with Get _ _ _ => true | _ => false end.

(** How a call ends: it returns, it raises, or it is still inside
    [while True] when the scripted responses run out. *)
Inductive status : Type :=
  | Returned (ok : bool)
  | Raised (e : exn)
  | Waiting.

Record run : Type := Run { outcome : status; files : FS; trace : list event }.

(** [get_remote_size]: the HEAD request is issued in every case. *)
Definition get_remote_size (h : head_response) : result (option Z) :=
  match h with
  | HeadURLError => Return None
  | HeadHeaders NoHeader => Return None
  | HeadHeaders EmptyHeader => Return None
  | HeadHeaders (Digits n) => Return (Some n)
  | HeadHeaders Garbage => Raise (Exn ValueError "invalid literal for int()")
  end.

(** [remote_size and test(remote_size)]: [None] and [0] are both falsy. *)
Definition known_and (remote_size : option Z) (test : Z -> bool) : bool :=
  match remote_size with
  | Some n => negb (n =? 0) && test n
  | None => false
  end.

(** The inner [while True] over [resp.read]: every non-empty piece is
    appended and flushed; an empty piece ends the body.  Returns the new
    content, [bytes_this_request], and whether the body ended inside the
    given pieces. *)
Fixpoint stream (pieces : list (list Byte.byte)) (data : list Byte.byte)
    (bytes_this_request : Z) : list Byte.byte * Z * bool :=
  match pieces with
  | [] => (data, bytes_this_request, false)
  | piece :: rest =>
      match piece with
      | [] => (data, bytes_this_request, true)
      | _ => stream rest (data ++ piece)
               (bytes_this_request + Z.of_nat (length piece))
      end
  end.

(** [open(partial, "ab")] followed by the streaming loop. *)
Definition append_body (partial : Path) (pieces : list (list Byte.byte))
    (fs : FS) : FS * Z * bool :=
  let '(data, n, ended) := stream pieces (default [] (fs !! partial)) 0 in
  (<[partial := data]> fs, n, ended).

Inductive loop_end : Type := LoopBreak | LoopWaiting.

Section Loop.
Variables (url : string) (partial : Path) (remote_size : option Z)
          (chunk_bytes : Z).

(** What follows the [with] blocks when no exception was raised. *)
Definition after_body (bytes_this_request : Z) : bool :=
  if bytes_this_request =? 0 then true
  else if bytes_this_request <? chunk_bytes then true
  else false.

(** The outer [while True], one scripted response per request. *)
Fixpoint download_loop (script : list response) (fs : FS)
    : loop_end * FS * list event :=
  let current_size := size_or_zero fs partial in
  if known_and remote_size (fun n => n <=? current_size) then
    (LoopBreak, fs, [])
  else
    match script with
    | [] => (LoopWaiting, fs, [])
    | r :: script' =>
        let range_end := current_size + chunk_bytes - 1 in
        let req := Get url current_size range_end in
        let retry fs' :=
          let '(e, fs'', tr) := download_loop script' fs' in
          (e, fs'', req :: Sleep 5 :: tr) in
        let finish pieces :=
          let '(fs', n, _) := append_body partial pieces fs in
          if after_body n then (LoopBreak, fs', [req])
          else
            let '(e, fs'', tr) := download_loop script' fs' in
            (e, fs'', req :: tr) in
        match r with
        | ConnectError => retry fs
        | ReadError pieces =>
            let '(fs', _, ended) := append_body partial pieces fs in
            if ended then finish pieces else retry fs'
        | Body pieces => finish pieces
        end
    end.
End Loop.

(** The lines after the loop: the final size check and the rename. *)
Definition verify_final (partial dest : Path) (remote_size : option Z)
    (fs : FS) : run :=
  let final_size := size_or_zero fs partial in
  if known_and remote_size (fun n => negb (final_size =? n)) then
    Run (Returned false) fs []
  else
    match rename partial dest fs with
    | Return fs' => Run (Returned true) fs' [Rename partial dest]
    | Raise e => Run (Raised e) fs []
    end.

Definition prepend (tr : list event) (r : run) : run :=
  Run (outcome r) (files r) (tr ++ trace r).

(** From "Resume from partial" to the end of the function. *)
Definition resume_and_download (url : string) (partial dest : Path)
    (remote_size : option Z) (chunk_bytes : Z) (script : list response)
    (fs : FS) : run :=
  let existing_size := size_or_zero fs partial in
  if (0 <? existing_size)
     && known_and remote_size (fun n => n <=? existing_size) then
    match rename partial dest fs with
    | Return fs' => Run (Returned true) fs' [Rename partial dest]
    | Raise e => Run (Raised e) fs []
    end
  else
    match download_loop url partial remote_size chunk_bytes script fs with
    | (LoopWaiting, fs', tr) => Run Waiting fs' (Mkdir (parent dest) :: tr)
    | (LoopBreak, fs', tr) =>
        prepend (Mkdir (parent dest) :: tr)
                (verify_final partial dest remote_size fs')
    end.

Definition download_with_resume (url : string) (dest : Path)
    (chunk_size_mb : Z) (head : head_response) (script : list response)
    (fs : FS) : run :=
  match with_suffix dest (suffix dest +:+ ".partial") with
  | Raise e => Run (Raised e) fs []
  | Return partial =>
      let chunk_bytes := chunk_size_mb * 1024 * 1024 in
      match get_remote_size head with
      | Raise e => Run (Raised e) fs [Head url]
      | Return remote_size =>
          match fs !! dest with
          | Some data =>
              if known_and remote_size
                   (fun n => Z.of_nat (length data) =? n)
              then Run (Returned true) fs [Head url]
              else
                prepend [Head url; Unlink dest]
                  (resume_and_download url partial dest remote_size
                     chunk_bytes script (delete dest fs))
          | None =>
              prepend [Head url]
                (resume_and_download url partial dest remote_size
                   chunk_bytes script fs)
          end
      end
  end.

Definition HF_BASE : string := "https://huggingface.co".
Definition REPO_ID : string := "stabilityai/TripoSR".

(** Files to download with their expected locations *)
Definition FILES : list (string * string) :=
  [("config.yaml", "config.yaml"); ("model.ckpt", "model.ckpt")].

(** [hf_url] *)
Definition hf_url (repo_id filename : string) : string :=
  HF_BASE +:+ "/" +:+ repo_id +:+ "/resolve/main/" +:+ filename.

(** What the server does for a URL: its answer to the probe and its
    responses to the ranged requests that follow. *)
Definition Server : Type := string -> head_response * list response.

(** The [for] loop of [main] over the files still to fetch; [all_ok] is the
    flag so far.  An exception or a download that never ends leaves the loop
    where it is. *)
Fixpoint download_files (todo : list (string * string)) (dest_dir : Path)
    (chunk_size : Z) (server : Server) (all_ok : bool) (fs : FS) : run :=
  match todo with
  | [] => Run (Returned all_ok) fs []
  | (filename, local_name) :: rest =>
      let url := hf_url REPO_ID filename in
      let dest := dest_dir </> local_name in
      let r := download_with_resume url dest chunk_size (server url).1
                 (server url).2 fs in
      match outcome r with
      | Returned ok =>
          prepend (trace r)
            (download_files rest dest_dir chunk_size server
               (if ok then all_ok else false) (files r))
      | _ => r
      end
  end.

(** How [main] ends: with its return value (the exit status), with an
    exception, or never. *)
Inductive main_status : Type :=
  | Exit (code : Z)
  | MainRaised (e : exn)
  | MainWaiting.

(** [main], with the destination directory and the chunk size parsed. *)
Definition main (dest_dir : Path) (chunk_size : Z) (server : Server) (fs : FS)
  : main_status * FS * list event :=
  let r := download_files FILES dest_dir chunk_size server true fs in
  (match outcome r with
   | Returned all_ok => Exit (if all_ok then 0 else 1)
   | Raised e => MainRaised e
   | Waiting => MainWaiting
   end,
   files r, Mkdir dest_dir :: trace r).

End Fetcher.

(** ** Python's [str] operations and [sorted] *)

Module Py.

(** [s.startswith(pre)] *)
Definition startswith (s pre : string) : bool := String.prefix pre s.

(** [needle in hay] on strings *)
Fixpoint contains (needle hay : string) : bool :=
  String.prefix needle hay
  || match hay with
     | EmptyString => false
     | String _ hay' => contains needle hay'
     end.

Definition lower_ascii (c : ascii) : ascii :=
  let n := nat_of_ascii c in
  if ((65 <=? n) && (n <=? 90))%nat then ascii_of_nat (n + 32) else c.

(** [s.lower()], on the ASCII letters (no other character lowers into the
    extension allow-list). *)
Fixpoint lower (s : string) : string :=
  match s with
  | EmptyString => EmptyString
  | String c s' => String (lower_ascii c) (lower s')
  end.

(** [sorted(l, key=...)] with [leb x y] for [key(x) <= key(y)]: a stable
    sort, written as insertion from the right. *)
Fixpoint insert_sorted {A} (leb : A -> A -> bool) (x : A) (l : list A) : list A :=
  match l with
  | [] => [x]
  | y :: l' => if leb x y then x :: y :: l' else y :: insert_sorted leb x l'
  end.

Definition sorted {A} (leb : A -> A -> bool) (l : list A) : list A :=
  foldr (insert_sorted leb) [] l.

(** No ["/"] in [s]: what a path component is. *)
Fixpoint slash_free (s : string) : bool :=
  match s with
  | EmptyString => true
  | String c s' => negb (bool_decide (c = "/"%char)) && slash_free s'
  end.

(** Comparison of lists of strings, as Python compares sequences. *)
Fixpoint lex_leb (l1 l2 : list string) : bool :=
  match l1, l2 with
  | [], _ => true
  | _ :: _, [] => false
  | a :: l1', b :: l2' =>
      match String.compare a b with
      | Lt => true
      | Gt => false
      | Eq => lex_leb l1' l2'
      end
  end.

(** What [PurePosixPath.__lt__] compares: [str(path).split("/")]. *)
Definition sort_key (p : Path) : list string :=
  match anchored p, parts p with
  | true, ps => "" :: ps
  | false, [] => ["."]
  | false, ps => ps
  end.

Definition path_leb (p q : Path) : bool := lex_leb (sort_key p) (sort_key q).

End Py.

(** ** pipeline.py: work item discovery *)

Module Discovery.

Inductive kind : Type := IsFile | IsDir.

#[global] Instance kind_eq_dec : EqDecision kind.
Proof. solve_decision. Defined.

(** The directory tree, flat: every existing path with what it is.  Symbolic
    links are not modelled. *)
Abbreviation Tree := (gmap Path kind).

Definition IMAGE_EXTENSIONS : list string :=
  [".png"; ".jpg"; ".jpeg"; ".webp"; ".bmp"].

Definition is_file (tree : Tree) (p : Path) : bool :=
  bool_decide (tree !! p = Some IsFile).

Definition is_dir (tree : Tree) (p : Path) : bool :=
  bool_decide (tree !! p = Some IsDir).

Definition path_exists (tree : Tree) (p : Path) : bool :=
  bool_decide (is_Some (tree !! p)).

(** [p] lies strictly below [root]. *)
Definition below (root p : Path) : bool :=
  bool_decide (anchored p = anchored root)
  && match strip_prefix (parts root) (parts p) with
     | Some (_ :: _) => true
     | _ => false
     end.

(** [root.rglob("*")]: everything below a directory, in the order the
    operating system lists it; nothing when [root] is no directory. *)
Definition rglob (tree : Tree) (root : Path) : list Path :=
  if is_dir tree root
  then List.filter (below root) (fst <$> map_to_list tree)
  else [].

Definition is_image (tree : Tree) (f : Path) : bool :=
  is_file tree f
  && bool_decide (Py.lower (suffix f) ∈ IMAGE_EXTENSIONS).

Definition find_images (tree : Tree) (input_path : Path) : list Path :=
  if is_file tree input_path then [input_path]
  else List.filter (is_image tree) (Py.sorted Py.path_leb (rglob tree input_path)).

(** The call [find_images(input_path)] as a Python call: it returns. *)
Definition find_images_call (tree : Tree) (input_path : Path)
  : result (list Path) :=
  Return (find_images tree input_path).

(** [relative_output_dir]: [relative_to] raises when the image is not
    under the input root. *)
Definition relative_output_dir (image_path input_root output_dir : Path)
  : result Path :=
  match relative_to image_path input_root with
  | Raise e => Raise e
  | Return rel => Return (joinpath output_dir (parent rel) </> stem rel)
  end.

(** [input_path.parent if input_path.is_file() else input_path], as [main]
    computes the root for the relative paths. *)
Definition input_root_of (tree : Tree) (input_path : Path) : Path :=
  if is_file tree input_path then parent input_path else input_path.

End Discovery.

(** ** pipeline.py: stages, the per-item runner and the batch driver *)

Module Pipeline.

Import Discovery.

(** A triangle of a mesh, as three vertex indices. *)
Definition Face : Type := nat * nat * nat.

(** The collaborators outside the script: the process launcher, the file
    system probes, the clock and the trimesh library.  [World] is whatever
    they act on.  A collaborator that can fail returns a [result]; only
    subclasses of [Exception] are modelled (an interrupt of the interpreter
    is not a stage failure). *)
Record Engines (World : Type) : Type := {
  Mesh : Type;
  (** [Path(__file__).parent.resolve()] and [sys.executable] *)
  SCRIPT_DIR : Path;
  sys_executable : string;
  (** [subprocess.run(cmd, cwd=...)], giving [returncode] *)
  subprocess_run : list string -> option string -> World -> World * result Z;
  (** the directory listing quoted in the "No mesh found" message *)
  describe_dir : Path -> World -> string;
  (** [time.monotonic()], in clock ticks *)
  monotonic : World -> Z;
  (** [import trimesh; trimesh.load(path, process=False)] *)
  trimesh_load : Path -> World -> result Mesh;
  (** [mesh.faces] *)
  faces : Mesh -> list Face;
  (** [mesh.simplify_quadric_decimation(face_count=n)] *)
  simplify_quadric_decimation : Mesh -> Z -> result Mesh;
  (** [mesh.export(path)] *)
  export : Mesh -> string -> World -> World * result unit;
  (** the directory tree [find_images] walks *)
  tree_of : World -> Tree;
}.

Arguments Mesh {World} _.
Arguments SCRIPT_DIR {World} _.
Arguments sys_executable {World} _.
Arguments subprocess_run {World} _ _ _ _.
Arguments describe_dir {World} _ _ _.
Arguments monotonic {World} _ _.
Arguments trimesh_load {World} _ _ _.
Arguments faces {World} _ _.
Arguments simplify_quadric_decimation {World} _ _ _.
Arguments export {World} _ _ _ _.
Arguments tree_of {World} _ _.

Record CharacterResult : Type := {
  name : string;
  image_path : string;
  mesh_path : string;
  rigged_path : string;
  mesh_time : Z;
  rig_time : Z;
  error : string;
}.

(** The document [json.dump] writes; a [dict] keeps its insertion order. *)
#[local] Unset Elimination Schemes.
Inductive json : Type :=
  | JString (s : string)
  | JNumber (n : Z)
  | JArray (items : list json)
  | JObject (fields : list (string * json)).
#[local] Set Elimination Schemes.

(** [obj[key]] on a parsed document *)
Definition json_field (key : string) (j : json) : option json :=
  match j with
  | JObject fields => snd <$> List.find (fun kv => bool_decide (fst kv = key)) fields
  | _ => None
  end.

(** The ["name"] of every entry of ["characters"], in the order of the
    document. *)
Definition persisted_names (manifest : json) : list string :=
  match json_field "characters" manifest with
  | Some (JArray items) =>
      omap (fun entry => match json_field "name" entry with
                         | Some (JString s) => Some s
                         | _ => None
                         end) items
  | _ => []
  end.

(** The stage functions [process_single] calls, in the order of the calls. *)
Inductive stage : Type := MeshStage | DecimateStage | RigStage.

#[global] Instance stage_eq_dec : EqDecision stage.
Proof. solve_decision. Defined.

(** [should_rig] *)
Definition should_rig (image_path : Path) (rig_dirs : option (list string))
  : bool :=
  match rig_dirs with
  | None => true
  | Some dirs =>
      let path_str := str image_path in
      existsb (fun d => Py.contains ("/" +:+ d +:+ "/") path_str
                        || Py.startswith path_str (d +:+ "/")) dirs
  end.

Section Stages.
Context {World : Type} (E : Engines World).

(** [path.exists()] *)
Definition exists_ (p : Path) (w : World) : bool :=
  path_exists (tree_of E w) p.

Definition TRIPOSR_DIR : Path := SCRIPT_DIR E </> "TripoSR".
Definition BLENDER_RIG_SCRIPT : Path :=
  SCRIPT_DIR E </> "scripts" </> "blender_rig.py".

(** [generate_mesh] *)
Definition generate_mesh (image_path char_output : Path) (mc_resolution : Z)
    (bake_texture : bool) (device : string) (w : World)
  : World * result Path :=
  let name := stem image_path in
  let weights_dir := SCRIPT_DIR E </> "weights" in
  let model_path :=
    if exists_ (weights_dir </> "model.ckpt") w then str weights_dir
    else "stabilityai/TripoSR" in
  let cmd :=
    [ sys_executable E; str (TRIPOSR_DIR </> "run.py"); str image_path;
      "--output-dir"; str char_output;
      "--mc-resolution"; pretty mc_resolution;
      "--device"; device;
      "--pretrained-model-name-or-path"; model_path ]
    ++ (if bake_texture then ["--bake-texture"] else []) in
  match subprocess_run E cmd (Some (str TRIPOSR_DIR)) w with
  | (w1, Raise e) => (w1, Raise e)
  | (w1, Return returncode) =>
      if negb (returncode =? 0) then
        (w1, Raise (Exn RuntimeError
                      ("TripoSR failed for " +:+ name +:+ " (exit code "
                       +:+ pretty returncode +:+ ")")))
      else
        let mesh_path := char_output </> "0" </> "mesh.obj" in
        let mesh_path :=
          if negb (exists_ mesh_path w1)
          then char_output </> "0" </> "mesh.glb" else mesh_path in
        if negb (exists_ mesh_path w1) then
          (w1, Raise (Exn FileNotFoundError
                        ("No mesh found in " +:+ str (char_output </> "0")
                         +:+ ". Contents: "
                         +:+ describe_dir E (char_output </> "0") w1)))
        else (w1, Return mesh_path)
  end.

(** [decimate_mesh]: returns [(path, original_faces, new_faces)]. *)
Definition decimate_mesh (mesh_path : Path) (max_faces : Z) (w : World)
  : World * result (Path * nat * nat) :=
  match trimesh_load E mesh_path w with
  | Raise e => (w, Raise e)
  | Return mesh =>
      let original_faces := length (faces E mesh) in
      if Z.of_nat original_faces <=? max_faces then
        (w, Return (mesh_path, original_faces, original_faces))
      else
        match simplify_quadric_decimation E mesh max_faces with
        | Raise e => (w, Raise e)
        | Return simplified =>
            match export E simplified (str mesh_path) w with
            | (w1, Raise e) => (w1, Raise e)
            | (w1, Return _) =>
                (w1, Return (mesh_path, original_faces,
                             length (faces E simplified)))
            end
        end
  end.

(** [rig_mesh] *)
Definition rig_mesh (mesh_path output_path : Path) (blender_bin : string)
    (w : World) : World * result Path :=
  let cmd :=
    [ blender_bin; "--background"; "--python"; str BLENDER_RIG_SCRIPT; "--";
      str mesh_path; str output_path ] in
  match subprocess_run E cmd None w with
  | (w1, Raise e) => (w1, Raise e)
  | (w1, Return returncode) =>
      if negb (returncode =? 0) then
        (w1, Raise (Exn RuntimeError
                      ("Blender rigging failed (exit code "
                       +:+ pretty returncode +:+ ")")))
      else if negb (exists_ output_path w1) then
        (w1, Raise (Exn FileNotFoundError
                      ("Rigged file not created: " +:+ str output_path)))
      else (w1, Return output_path)
  end.

(** The arguments of [process_single] other than the image. *)
Record Config : Type := {
  input_root : Path;
  output_dir : Path;
  blender_bin : option string;
  export_format : string;
  mc_resolution : Z;
  bake_texture : bool;
  skip_rig : bool;
  device : string;
  rig_dirs : option (list string);
  max_faces : option Z;
}.

(** The arguments [main] hands to [process_single] for every image, in the
    order of the call. *)
Definition call_arguments (input_root output_dir : Path)
    (blender_bin : option string) (format : string) (resolution : Z)
    (bake_texture skip_rig : bool) (device : string)
    (rig_dirs : option (list string)) (max_faces : option Z) : Config :=
  {| input_root := input_root; output_dir := output_dir;
     blender_bin := blender_bin; export_format := format;
     mc_resolution := resolution; bake_texture := bake_texture;
     skip_rig := skip_rig; device := device; rig_dirs := rig_dirs;
     max_faces := max_faces |}.

(** [process_single]: the new world, what the call returns or raises, and
    the stage functions that were called.  The arguments that [main]
    passes unchanged to every call are the fields of [Config]. *)
Definition process_single (image_path : Path) (c : Config) (w : World)
  : World * result CharacterResult * list stage :=
  let name := stem image_path in
  match relative_output_dir image_path (input_root c) (output_dir c) with
  | Raise e => (w, Raise e, [])
  | Return char_output =>
      let result :=
        {| name := name; image_path := str image_path; mesh_path := "";
           rigged_path := ""; mesh_time := 0; rig_time := 0; error := "" |} in
      (* Stage 1: Generate mesh *)
      let t0 := monotonic E w in
      match generate_mesh image_path char_output (mc_resolution c)
              (bake_texture c) (device c) w with
      | (w1, Raise e) =>
          (w1,
           Return {| name := name; image_path := str image_path;
                     mesh_path := ""; rigged_path := ""; mesh_time := 0;
                     rig_time := 0;
                     error := "mesh generation: " +:+ exn_msg e |},
           [MeshStage])
      | (w1, Return mesh) =>
          let result :=
            {| name := name; image_path := str image_path;
               mesh_path := str mesh; rigged_path := "";
               mesh_time := monotonic E w1 - t0; rig_time := 0;
               error := "" |} in
          (* Stage 1.5: Decimate *)
          let decimated :=
            match max_faces c with
            | None => (w1, Return tt, [MeshStage])
            | Some n =>
                match decimate_mesh mesh n w1 with
                | (w2, Raise e) => (w2, Raise e, [MeshStage; DecimateStage])
                | (w2, Return _) => (w2, Return tt, [MeshStage; DecimateStage])
                end
            end in
          match decimated with
          | (w2, Raise e, tr) =>
              (w2,
               Return {| name := name; image_path := str image_path;
                         mesh_path := str mesh; rigged_path := "";
                         mesh_time := monotonic E w1 - t0; rig_time := 0;
                         error := "decimation: " +:+ exn_msg e |},
               tr)
          | (w2, Return _, tr) =>
              (* Stage 2: Auto-rig *)
              let do_rig :=
                negb (skip_rig c) && should_rig image_path (rig_dirs c) in
              match do_rig, blender_bin c with
              | false, _ | _, None => (w2, Return result, tr)
              | true, Some bin =>
                  let rigged :=
                    char_output
                    </> (name +:+ "_rigged." +:+ export_format c) in
                  let t0 := monotonic E w2 in
                  match rig_mesh mesh rigged bin w2 with
                  | (w3, Return _) =>
                      (w3,
                       Return {| name := name; image_path := str image_path;
                                 mesh_path := str mesh;
                                 rigged_path := str rigged;
                                 mesh_time := mesh_time result;
                                 rig_time := monotonic E w3 - t0;
                                 error := "" |},
                       tr ++ [RigStage])
                  | (w3, Raise e) =>
                      (w3,
                       Return {| name := name; image_path := str image_path;
                                 mesh_path := str mesh; rigged_path := "";
                                 mesh_time := mesh_time result; rig_time := 0;
                                 error := "rigging: " +:+ exn_msg e |},
                       tr ++ [RigStage])
                  end
              end
          end
      end
  end.

(** The scheduling part of [main].  With one worker the images are processed
    in discovery order.  With more, [as_completed] hands the results over in
    completion order: [completed] lists the images in that order, and each
    [process_single] is taken as one step on the world.  An exception of
    [process_single] would leave [main] through [future.result()] or the
    plain call. *)
Fixpoint run_items (images : list Path) (c : Config) (w : World)
  : World * result (list CharacterResult) :=
  match images with
  | [] => (w, Return [])
  | img :: rest =>
      match process_single img c w with
      | (w1, Raise e, _) => (w1, Raise e)
      | (w1, Return r, _) =>
          match run_items rest c w1 with
          | (w2, Return rs) => (w2, Return (r :: rs))
          | (w2, Raise e) => (w2, Raise e)
          end
      end
  end.

Definition collect_results (workers : Z) (images completed : list Path)
    (c : Config) (w : World) : World * result (list CharacterResult) :=
  if 1 <? workers then run_items completed c w else run_items images c w.

(** The order of the printed summary: [sorted(results, key=lambda x: x.name)]. *)
Definition summary_order (results : list CharacterResult)
  : list CharacterResult :=
  Py.sorted (fun x y => String.leb (name x) (name y)) results.

(** The manifest handed to [json.dump]. *)
Definition manifest_entry (r : CharacterResult) : json :=
  JObject [ ("name", JString (name r));
            ("image", JString (image_path r));
            ("mesh", JString (mesh_path r));
            ("rigged", JString (rigged_path r));
            ("mesh_time", JNumber (mesh_time r));
            ("rig_time", JNumber (rig_time r));
            ("error", JString (error r)) ].

Definition build_manifest (total_time : Z) (results : list CharacterResult)
  : json :=
  JObject [ ("total_time", JNumber total_time);
            ("characters", JArray (manifest_entry <$> results)) ].

Inductive main_outcome : Type :=
  | SysExit (code : Z)
  | Uncaught (e : exn)
  | Finished (summary : list CharacterResult) (manifest_path : Path)
             (manifest : json).

(** [main] from "Validate TripoSR" on, with the arguments parsed, the paths
    resolved and Blender looked up. *)
Definition main (input_path output_dir : Path) (format : string)
    (resolution : Z) (bake_texture skip_rig : bool) (max_faces : option Z)
    (rig_dirs : option (list string)) (workers : Z)
    (blender_bin : option string) (device : string) (completed : list Path)
    (w : World) : World * main_outcome :=
  if negb (exists_ TRIPOSR_DIR w) then (w, SysExit 1)
  else
    let images := find_images (tree_of E w) input_path in
    match images with
    | [] => (w, SysExit 1)
    | _ =>
        let input_root := input_root_of (tree_of E w) input_path in
        let c :=
          call_arguments input_root output_dir blender_bin format resolution
            bake_texture skip_rig device rig_dirs max_faces in
        let t_start := monotonic E w in
        match collect_results workers images completed c w with
        | (w1, Raise e) => (w1, Uncaught e)
        | (w1, Return results) =>
            let total_time := monotonic E w1 - t_start in
            (w1, Finished (summary_order results)
                          (output_dir </> "manifest.json")
                          (build_manifest total_time results))
        end
    end.

End Stages.

End Pipeline.

(** ** Vocabulary of the statements about paths *)

(** The tail of a path string after a component: nothing, or a separator
    and the remaining components. *)
Definition tail_str (ps : list string) : string :=
  match ps with
  | [] => ""
  | _ => "/" +:+ join "/" ps
  end.

(** C7 as the specification words it: discovery on a missing input path
    ends in an error instead of a sequence. *)
Definition discovery_raises_not_found : Prop :=
  forall (tree : Discovery.Tree) (input_path : Path),
    Discovery.path_exists tree input_path = false ->
    exists e, Discovery.find_images_call tree input_path = Raise e.


(** [p] is [root] or lies below it. *)
Definition under (root p : Path) : Prop :=
  anchored p = anchored root /\ parts root `prefix_of` parts p.

(** ** Vocabulary of the statements about the fetcher *)

Module FetcherSpec.
Import Fetcher.

(** The number of HEAD and GET requests of a run. *)
Definition network_requests (r : run) : nat :=
  length (List.filter is_network_request (trace r)).

(** C1 as the specification words it: success, no network request at all,
    the file system unchanged. *)
Definition idempotent_without_network : Prop :=
  forall (url : string) (dest : Path) (chunk_size_mb n : Z)
         (script : list response) (fs : FS) (data : list Byte.byte),
    parts dest <> [] ->
    fs !! dest = Some data ->
    Z.of_nat (length data) = n ->
    let r := download_with_resume url dest chunk_size_mb
               (HeadHeaders (Digits n)) script fs in
    outcome r = Returned true /\ network_requests r = 0%nat /\ files r = fs.

Definition model_ckpt : Path := mkPath true ["weights"; "model.ckpt"].
Definition three_bytes : list Byte.byte := [Byte.x01; Byte.x02; Byte.x03].

(** [partial]'s content, empty when the file does not exist. *)
Definition partial_data (fs : FS) (partial : Path) : list Byte.byte :=
  default [] (fs !! partial).

(** The bytes a body delivers before it ends: the pieces up to the first
    empty one. *)
Fixpoint written (pieces : list (list Byte.byte)) : list Byte.byte :=
  match pieces with
  | [] => []
  | [] :: _ => []
  | piece :: rest => piece ++ written rest
  end.

Fixpoint body_ends (pieces : list (list Byte.byte)) : bool :=
  match pieces with
  | [] => false
  | [] :: _ => true
  | _ :: rest => body_ends rest
  end.

(** A request that ends in an exception: [urlopen] raises, or [read]
    raises after the pieces it delivered. *)
Definition network_error (r : response) : bool :=
  match r with
  | ConnectError => true
  | ReadError pieces => negb (body_ends pieces)
  | Body _ => false
  end.

(** The bytes flushed to the partial file before the exception. *)
Definition flushed (r : response) : list Byte.byte :=
  match r with
  | ReadError pieces => written pieces
  | _ => []
  end.

(** The files when the [except] clause is entered. *)
Definition after_error (partial : Path) (r : response) (fs : FS) : FS :=
  match r with
  | ReadError pieces => <[partial := partial_data fs partial ++ written pieces]> fs
  | _ => fs
  end.

(** The bytes a response appends to the partial file. *)
Definition delivered (r : response) : list Byte.byte :=
  match r with
  | ConnectError => []
  | ReadError pieces | Body pieces => written pieces
  end.

(** The files after a response has been consumed. *)
Definition after_response (partial : Path) (r : response) (fs : FS) : FS :=
  match r with
  | ConnectError => fs
  | _ => <[partial := partial_data fs partial ++ delivered r]> fs
  end.

(** A loop result with events put in front. *)
Definition prefixed (evs : list event) (x : loop_end * FS * list event)
  : loop_end * FS * list event :=
  let '(e, fs, tr) := x in (e, fs, evs ++ tr).

(** The partial file of a destination: in the same directory, the name
    followed by [".partial"]. *)
Definition partial_of (dest : Path) : Path :=
  mkPath (anchored dest)
         (removelast (parts dest) ++ [PathLib.name dest +:+ ".partial"]).

(** What a server that honours ranges sends for a request starting at
    [offset]: the next [chunk_bytes] bytes of the remote file, fewer at its
    end. *)
Definition served (content : list Byte.byte) (chunk_bytes : Z) (offset : nat)
  : list Byte.byte :=
  take (Z.to_nat chunk_bytes) (drop offset content).

(** A script of responses from a server that honours ranges, for a client
    whose partial file holds [offset] bytes: a request may fail, and what it
    delivers before that is the start of the range asked for. *)
Inductive honours (content : list Byte.byte) (chunk_bytes : Z)
  : nat -> list response -> Prop :=
  | honours_nil offset : honours content chunk_bytes offset []
  | honours_connect offset rest :
      honours content chunk_bytes offset rest ->
      honours content chunk_bytes offset (ConnectError :: rest)
  | honours_read offset pieces rest :
      body_ends pieces = false ->
      written pieces `prefix_of` served content chunk_bytes offset ->
      honours content chunk_bytes (offset + length (written pieces)) rest ->
      honours content chunk_bytes offset (ReadError pieces :: rest)
  | honours_body offset pieces rest :
      written pieces = served content chunk_bytes offset ->
      honours content chunk_bytes
        (offset + length (served content chunk_bytes offset)) rest ->
      honours content chunk_bytes offset (Body pieces :: rest).

(** [count] responses of such a server without any failure. *)
Fixpoint range_server (content : list Byte.byte) (chunk_bytes : Z)
    (offset count : nat) : list response :=
  match count with
  | O => []
  | S count' =>
      Body [served content chunk_bytes offset]
      :: range_server content chunk_bytes
           (offset + length (served content chunk_bytes offset)) count'
  end.

(** What the download loop may do: a ranged GET of [chunk_bytes] bytes that
    starts at or after [start], or the 5 second sleep. *)
Definition loop_event (url : string) (chunk_bytes start : Z) (e : event) : Prop :=
  match e with
  | Get u range_start range_end =>
      u = url /\ start <= range_start
      /\ range_end = range_start + chunk_bytes - 1
  | Sleep seconds => seconds = 5
  | _ => False
  end.

(** The files of the examples. *)
Definition model_ckpt_partial : Path :=
  mkPath true ["weights"; "model.ckpt.partial"].
Definition six_bytes : list Byte.byte :=
  [Byte.x01; Byte.x02; Byte.x03; Byte.x04; Byte.x05; Byte.x06].
Definition two_of_six : FS := {[ model_ckpt_partial := [Byte.x01; Byte.x02] ]}.

(** A connection that fails, a body that breaks after one byte, and the
    rest of the file. *)
Definition faulty_script : list response :=
  [ConnectError; ReadError [[Byte.x03]];
   Body [[Byte.x04; Byte.x05; Byte.x06]]].

(** A server with the same three bytes behind every URL. *)
Definition three_byte_server : Server :=
  fun _ => (HeadHeaders (Digits 3), [Body [three_bytes]]).

Definition weights_dir : Path := mkPath true ["weights"].

End FetcherSpec.

(** ** Vocabulary of the statements about the runner *)

Module RunnerSpec.
Import Discovery Pipeline.

(** The decimation stage did not fail: it was not configured, or
    [decimate_mesh] returned.  [tr0] lists the stages called so far. *)
Definition decimation_passed {World : Type} (E : Engines World) (c : Config)
    (mesh : Path) (w1 w2 : World) (tr0 : list stage) : Prop :=
  (max_faces c = None /\ w2 = w1 /\ tr0 = [MeshStage])
  \/ (exists n x, max_faces c = Some n
                  /\ decimate_mesh E mesh n w1 = (w2, Return x)
                  /\ tr0 = [MeshStage; DecimateStage]).

(** The rigging gate, with [matching] for the components of the image path
    a pattern is looked up in. *)
Definition rig_gate (matching : Path -> list string) (image_path : Path)
    (c : Config) : Prop :=
  skip_rig c = false
  /\ is_Some (blender_bin c)
  /\ (rig_dirs c = None
      \/ exists dirs d, rig_dirs c = Some dirs /\ d ∈ dirs
                        /\ d ∈ matching image_path).

(** The directories of a path: its components without the file name. *)
Definition directories (p : Path) : list string := removelast (parts p).

(** The path [process_single] asks the rig stage to write. *)
Definition rigged_target (image_path co : Path) (c : Config) : Path :=
  co </> (stem image_path +:+ "_rigged." +:+ export_format c).

(** The mesh stage of an image fails whatever the world is. *)
Definition mesh_always_fails {World : Type} (E : Engines World) (c : Config)
    (image_path : Path) : Prop :=
  forall (co : Path) (w : World),
    exists w1 e,
      generate_mesh E image_path co (mc_resolution c) (bake_texture c)
        (device c) w = (w1, Raise e).

(** Every stage of an image passes whatever the world is. *)
Definition stages_always_pass {World : Type} (E : Engines World) (c : Config)
    (image_path : Path) : Prop :=
  forall (co : Path),
    relative_output_dir image_path (input_root c) (output_dir c) = Return co ->
    forall (w : World),
      exists w1 mesh,
        generate_mesh E image_path co (mc_resolution c) (bake_texture c)
          (device c) w = (w1, Return mesh)
        /\ (forall n w', exists w2 x,
              decimate_mesh E mesh n w' = (w2, Return x))
        /\ (forall bin w', blender_bin c = Some bin ->
              exists w3 p,
                rig_mesh E mesh (rigged_target image_path co c) bin w'
                = (w3, Return p)).

(** The outcomes of a report that carry an error. *)
Definition with_error (results : list CharacterResult)
  : list CharacterResult :=
  filter (fun r => error r <> "") results.

(** What one always-failing image [k] means for the outcome [r] of an
    image of the batch. *)
Definition isolates (k : Path) (image_path : Path) (r : CharacterResult) : Prop :=
  (image_path = k -> error r <> "")
  /\ (image_path <> k -> error r = "" /\ mesh_path r <> "").

(** C6 as the specification words it: with the earlier stages passed, the
    rig stage runs exactly when the gate holds with a pattern among the
    components of the path. *)
Definition rig_runs_iff_pattern_is_component : Prop :=
  forall (World : Type) (E : Engines World) (image_path : Path) (c : Config)
         (w w1 w2 : World) (co mesh : Path) (tr0 : list stage),
    relative_output_dir image_path (input_root c) (output_dir c) = Return co ->
    generate_mesh E image_path co (mc_resolution c) (bake_texture c)
      (device c) w = (w1, Return mesh) ->
    decimation_passed E c mesh w1 w2 tr0 ->
    (RigStage ∈ (process_single E image_path c w).2
     <-> rig_gate parts image_path c).

End RunnerSpec.

(** ** A small installation for the examples *)

Module Toy.
Import Discovery Pipeline.

(** The world of the examples is the clock; the directory tree stays as it
    is: an input directory with two images and, from an earlier run, the two
    meshes and the two rigged files in the output directory. *)
Definition World : Type := Z.

Definition dir (ps : list string) : Path * kind := (mkPath true ps, IsDir).
Definition file (ps : list string) : Path * kind := (mkPath true ps, IsFile).

Definition tree0 : Tree :=
  list_to_map
    [ dir ["opt"]; dir ["opt"; "img2char"];
      dir ["opt"; "img2char"; "TripoSR"];
      dir ["in"]; dir ["in"; "monsters"]; dir ["in"; "items"];
      file ["in"; "monsters"; "bat.png"];
      file ["in"; "items"; "sword.png"];
      file ["in"; "notes.txt"];
      file ["out"; "monsters"; "bat"; "0"; "mesh.obj"];
      file ["out"; "items"; "sword"; "0"; "mesh.obj"];
      file ["out"; "monsters"; "bat"; "bat_rigged.fbx"];
      file ["out"; "items"; "sword"; "sword_rigged.fbx"] ].

(** A launched command takes one tick and exits with 1 when one of its
    arguments is listed in [failing], with 0 otherwise; every mesh file
    holds the same two triangles. *)
Definition engines (failing : list string) : Engines World :=
  {| Mesh := list Face;
     SCRIPT_DIR := mkPath true ["opt"; "img2char"];
     sys_executable := "/usr/bin/python3";
     subprocess_run := fun cmd _ w =>
       (w + 1,
        Return (if existsb (fun a => bool_decide (a ∈ failing)) cmd
                then 1 else 0));
     describe_dir := fun _ _ => "dir missing";
     monotonic := fun w => w;
     trimesh_load := fun _ _ => Return [(0, 1, 2); (0, 2, 3)]%nat;
     faces := fun m => m;
     simplify_quadric_decimation := fun m n => Return (take (Z.to_nat n) m);
     export := fun _ _ w => (w + 1, Return tt);
     tree_of := fun _ => tree0 |}.

Definition in_dir : Path := mkPath true ["in"].
Definition out_dir : Path := mkPath true ["out"].
Definition bat_png : Path := mkPath true ["in"; "monsters"; "bat.png"].
Definition sword_png : Path := mkPath true ["in"; "items"; "sword.png"].

Definition config (rig_dirs : option (list string)) (max_faces : option Z)
  : Config :=
  {| input_root := in_dir; output_dir := out_dir;
     blender_bin := Some "/usr/bin/blender"; export_format := "fbx";
     mc_resolution := 256; bake_texture := false; skip_rig := false;
     device := "cpu"; rig_dirs := rig_dirs; max_faces := max_faces |}.

(** The arguments of the examples' runs of [main] over [in_dir]. *)
Definition batch_config : Config :=
  call_arguments in_dir out_dir (Some "/usr/bin/blender") "fbx" 256 false
    false "cpu" None None.

(** Engines under which every command that names the bat image fails. *)
Definition bat_fails : Engines World := engines ["/in/monsters/bat.png"].

End Toy.

(** * Properties *)

(** ** Paths *)

Lemma substring_all (s : string) :
  String.substring 0 (String.length s) s = s.
Proof. induction s; simpl; [reflexivity|by f_equal]. Qed.

Lemma substring_split (s : string) (i : nat) :
  (i <= String.length s)%nat ->
  String.substring 0 i s +:+ String.substring i (String.length s - i) s = s.
Proof.
  revert i; induction s as [|c s IH]; intros [|i] Hi; simpl in *; try lia.
  - reflexivity.
  - unfold String.app; simpl. f_equal. apply substring_all.
  - unfold String.app in *. simpl. f_equal. apply IH. lia.
Qed.

Lemma rfind_lt (c : ascii) (s : string) (i : nat) :
  rfind c s = Some i -> (i < String.length s)%nat.
Proof.
  revert i; induction s as [|a s IH]; intros i; simpl; [discriminate|].
  destruct (rfind c s) as [j|].
  - intros [= <-]. specialize (IH j eq_refl). lia.
  - destruct (decide (a = c)); [intros [= <-]; lia | discriminate].
Qed.

(** A name is its stem followed by its suffix. *)
Lemma stem_suffix (nm : string) :
  stem_of_name nm +:+ suffix_of_name nm = nm.
Proof.
  unfold stem_of_name, suffix_of_name, splits_at.
  destruct (rfind "." nm) as [i|] eqn:Hi.
  - destruct (_ && _).
    + apply substring_split. apply rfind_lt in Hi. lia.
    + clear. induction nm; [reflexivity|]. unfold String.app in *; simpl; by f_equal.
  - clear. induction nm; [reflexivity|]. unfold String.app in *; simpl; by f_equal.
Qed.

Lemma string_app_assoc (a b c : string) : (a +:+ b) +:+ c = a +:+ b +:+ c.
Proof. unfold String.app. induction a; simpl; [reflexivity|by f_equal]. Qed.

Lemma string_app_length (a b : string) :
  String.length (a +:+ b) = (String.length a + String.length b)%nat.
Proof. unfold String.app. induction a; simpl; [reflexivity|by f_equal]. Qed.

(** The partial file of a named destination is another path: the same
    directory, the name followed by [".partial"]. *)
Lemma partial_path (dest : Path) :
  parts dest <> [] ->
  exists partial,
    with_suffix dest (suffix dest +:+ ".partial") = Return partial
    /\ partial = mkPath (anchored dest)
                   (removelast (parts dest) ++ [PathLib.name dest +:+ ".partial"])
    /\ partial <> dest.
Proof.
  intros Hne. unfold with_suffix, with_name, stem, suffix.
  destruct (parts dest) as [|p ps] eqn:Hp; [done|].
  eexists; split; [reflexivity|].
  rewrite <- string_app_assoc, stem_suffix. split; [reflexivity|].
  intros Heq. apply (f_equal (fun q => String.length (List.last (parts q) ""))) in Heq.
  cbn [parts] in Heq. rewrite last_last in Heq.
  unfold PathLib.name in Heq. rewrite string_app_length in Heq.
  simpl String.length in Heq. lia.
Qed.

Lemma joinseg_segment (p : Path) (s : string) :
  s <> "" -> s <> "." ->
  p </> s = mkPath (anchored p) (parts p ++ [s]).
Proof.
  intros H1 H2. unfold joinseg. rewrite bool_decide_eq_false_2; [reflexivity|].
  by intros [?|?].
Qed.

(** ** The fetcher *)

Section FetcherFacts.
Import Fetcher FetcherSpec.

(** A complete destination of non-zero expected size: the call returns
    [True] right after the HEAD probe and touches no file. *)
Lemma download_complete_dest (url : string) (dest : Path) (chunk_size_mb n : Z)
    (script : list response) (fs : FS) (data : list Byte.byte) :
  parts dest <> [] ->
  fs !! dest = Some data ->
  Z.of_nat (length data) = n ->
  n <> 0 ->
  download_with_resume url dest chunk_size_mb (HeadHeaders (Digits n)) script fs
  = Run (Returned true) fs [Head url].
Proof.
  intros Hne Hdest Hlen Hn.
  destruct (partial_path dest Hne) as (partial & Hp & _ & _).
  unfold download_with_resume. rewrite Hp. cbn [get_remote_size].
  rewrite Hdest. unfold known_and.
  apply Z.eqb_neq in Hn. rewrite Hn. cbn [negb andb].
  apply Z.eqb_eq in Hlen. by rewrite Hlen.
Qed.

(** C1 (amended).  When the destination exists and its size equals a
    non-zero expected size reported by the HEAD probe, [download_with_resume]
    returns [True], its only network request is that HEAD probe (no ranged
    GET follows), and no file is deleted, truncated or renamed. *)
Theorem C1_complete_destination_only_probed (url : string) (dest : Path)
    (chunk_size_mb n : Z) (script : list response) (fs : FS)
    (data : list Byte.byte) :
  parts dest <> [] ->
  fs !! dest = Some data ->
  Z.of_nat (length data) = n ->
  n <> 0 ->
  let r := download_with_resume url dest chunk_size_mb
             (HeadHeaders (Digits n)) script fs in
  outcome r = Returned true
  /\ trace r = [Head url]
  /\ List.filter is_get (trace r) = []
  /\ files r = fs.
Proof.
  intros Hne Hdest Hlen Hn r. subst r.
  rewrite (download_complete_dest url dest chunk_size_mb n script fs data)
    by assumption.
  repeat split.
Qed.

Lemma C1_complete_destination_only_probed_witness :
  let fs : FS := {[ model_ckpt := three_bytes ]} in
  let r := download_with_resume "u" model_ckpt 10 (HeadHeaders (Digits 3))
             [Body [three_bytes]] fs in
  outcome r = Returned true
  /\ trace r = [Head "u"]
  /\ List.filter is_get (trace r) = []
  /\ files r = fs.
Proof.
  apply (C1_complete_destination_only_probed "u" model_ckpt 10 3
           [Body [three_bytes]] {[ model_ckpt := three_bytes ]} three_bytes).
  - discriminate.
  - reflexivity.
  - reflexivity.
  - lia.
Defined.

(** The claim as worded fails: the probe itself is a network request. *)
Lemma C1_counterexample : ~ idempotent_without_network.
Proof.
  intros H.
  destruct (H "u" model_ckpt 10 3 [] {[ model_ckpt := three_bytes ]} three_bytes)
    as (_ & Hreq & _); [discriminate | reflexivity | reflexivity |].
  vm_compute in Hreq. discriminate Hreq.
Qed.

(** *** The download loop *)

Lemma stream_spec (pieces : list (list Byte.byte)) (data : list Byte.byte) (n : Z) :
  stream pieces data n
  = (data ++ written pieces, n + Z.of_nat (length (written pieces)),
     body_ends pieces).
Proof.
  revert data n; induction pieces as [|piece rest IH]; intros data n.
  - simpl. rewrite app_nil_r. repeat f_equal. lia.
  - destruct piece as [|b piece].
    + simpl. rewrite app_nil_r. repeat f_equal. lia.
    + cbn [stream written body_ends]. rewrite IH.
      rewrite <- app_assoc. rewrite (length_app (b :: piece)).
      do 2 f_equal. lia.
Qed.

Lemma append_body_spec (partial : Path) (pieces : list (list Byte.byte)) (fs : FS) :
  append_body partial pieces fs
  = (<[partial := partial_data fs partial ++ written pieces]> fs,
     Z.of_nat (length (written pieces)), body_ends pieces).
Proof.
  unfold append_body. rewrite stream_spec. reflexivity.
Qed.

Lemma partial_data_insert (partial : Path) (data : list Byte.byte) (fs : FS) :
  partial_data (<[partial := data]> fs) partial = data.
Proof. unfold partial_data. by rewrite lookup_insert_eq. Qed.

Lemma size_or_zero_data (fs : FS) (partial : Path) :
  size_or_zero fs partial = Z.of_nat (length (partial_data fs partial)).
Proof. unfold size_or_zero, partial_data. by destruct (fs !! partial). Qed.

Section LoopFacts.
Variables (url : string) (partial : Path) (remote_size : option Z)
          (chunk_bytes : Z).

#[local] Abbreviation loop := (download_loop url partial remote_size chunk_bytes).

Lemma download_loop_prefix (script : list response) (fs : FS) :
  partial_data fs partial `prefix_of` partial_data (loop script fs).1.2 partial.
Proof.
  revert fs; induction script as [|r script IH]; intros fs.
  - simpl. destruct (known_and _ _); reflexivity.
  - cbn [download_loop]. destruct (known_and _ _); [reflexivity|].
    assert (Hretry : forall fs1,
      partial_data fs partial `prefix_of` partial_data fs1 partial ->
      partial_data fs partial `prefix_of`
        partial_data (let '(e, fs2, tr) := loop script fs1 in
                      (e, fs2, Get url (size_or_zero fs partial)
                                 (size_or_zero fs partial + chunk_bytes - 1)
                               :: Sleep 5 :: tr)).1.2 partial).
    { intros fs1 H1. specialize (IH fs1).
      destruct (loop script fs1) as [[e fs2] tr]. simpl in *. by etrans. }
    assert (Hfinish : forall pieces,
      partial_data fs partial `prefix_of`
        partial_data
          (let '(fs', n, _) := append_body partial pieces fs in
           if after_body chunk_bytes n
           then (LoopBreak, fs', [Get url (size_or_zero fs partial)
                                    (size_or_zero fs partial + chunk_bytes - 1)])
           else let '(e, fs'', tr) := loop script fs' in
                (e, fs'', Get url (size_or_zero fs partial)
                            (size_or_zero fs partial + chunk_bytes - 1) :: tr)).1.2
          partial).
    { intros pieces. rewrite append_body_spec.
      destruct (after_body _ _).
      - simpl. rewrite partial_data_insert. by apply prefix_app_r.
      - specialize (IH (<[partial:=partial_data fs partial ++ written pieces]> fs)).
        destruct (loop script _) as [[e fs2] tr]. simpl in *.
        etrans; [|exact IH]. rewrite partial_data_insert. by apply prefix_app_r. }
    destruct r as [|pieces|pieces].
    + apply Hretry. reflexivity.
    + rewrite append_body_spec. destruct (body_ends pieces).
      * specialize (Hfinish pieces). rewrite append_body_spec in Hfinish.
        exact Hfinish.
      * apply Hretry. rewrite partial_data_insert. by apply prefix_app_r.
    + apply Hfinish.
Qed.

(** One request that ends in an exception. *)
Lemma download_loop_error_step (r : response) (script : list response) (fs : FS) :
  network_error r = true ->
  known_and remote_size (fun n => n <=? size_or_zero fs partial) = false ->
  loop (r :: script) fs
  = (let '(e, fs2, tr) := loop script (after_error partial r fs) in
     (e, fs2, Get url (size_or_zero fs partial)
                (size_or_zero fs partial + chunk_bytes - 1) :: Sleep 5 :: tr)).
Proof.
  intros Herr Hgo. cbn [download_loop]. rewrite Hgo.
  destruct r as [|pieces|pieces]; [reflexivity| |discriminate].
  rewrite append_body_spec. simpl in Herr.
  destruct (body_ends pieces); [discriminate|]. reflexivity.
Qed.

(** The first request of a loop that has something left to ask for starts at
    the partial file's length. *)
Lemma download_loop_first_request (r : response) (script : list response) (fs : FS) :
  known_and remote_size (fun n => n <=? size_or_zero fs partial) = false ->
  exists tr,
    (loop (r :: script) fs).2
    = Get url (size_or_zero fs partial)
        (size_or_zero fs partial + chunk_bytes - 1) :: tr.
Proof.
  intros Hgo. cbn [download_loop]. rewrite Hgo.
  assert (Hretry : forall fs1, exists tr,
    (let '(e, fs2, tr0) := loop script fs1 in
     (e, fs2, Get url (size_or_zero fs partial)
                (size_or_zero fs partial + chunk_bytes - 1)
              :: Sleep 5 :: tr0)).2
    = Get url (size_or_zero fs partial)
        (size_or_zero fs partial + chunk_bytes - 1) :: tr).
  { intros fs1. destruct (loop script fs1) as [[e fs2] tr0]. by eexists. }
  assert (Hfinish : forall pieces, exists tr,
    (let '(fs', n, _) := append_body partial pieces fs in
     if after_body chunk_bytes n
     then (LoopBreak, fs', [Get url (size_or_zero fs partial)
                              (size_or_zero fs partial + chunk_bytes - 1)])
     else let '(e, fs'', tr0) := loop script fs' in
          (e, fs'', Get url (size_or_zero fs partial)
                      (size_or_zero fs partial + chunk_bytes - 1) :: tr0)).2
    = Get url (size_or_zero fs partial)
        (size_or_zero fs partial + chunk_bytes - 1) :: tr).
  { intros pieces. rewrite append_body_spec. destruct (after_body _ _).
    - by eexists.
    - destruct (loop script _) as [[e fs2] tr0]. by eexists. }
  destruct r as [|pieces|pieces]; [apply Hretry| |apply Hfinish].
  rewrite append_body_spec. destruct (body_ends pieces).
  - specialize (Hfinish pieces). rewrite append_body_spec in Hfinish.
    exact Hfinish.
  - apply Hretry.
Qed.

(** C4.  Through the download loop the partial file only grows: its content
    at the start is a prefix of its content at every later point.  A request
    that ends in a network error keeps the bytes flushed before the error,
    is followed by a 5 second sleep, and the loop goes on from the partial
    file as it then is: the next request starts at its current length. *)
Theorem C4_partial_file_never_shrinks :
  (forall (script : list response) (fs : FS),
     partial_data fs partial `prefix_of` partial_data (loop script fs).1.2 partial
     /\ size_or_zero fs partial <= size_or_zero (loop script fs).1.2 partial)
  /\ (forall (r : response) (script : list response) (fs : FS),
        network_error r = true ->
        known_and remote_size (fun n => n <=? size_or_zero fs partial) = false ->
        let fs1 := after_error partial r fs in
        partial_data fs1 partial = partial_data fs partial ++ flushed r
        /\ (forall q, q <> partial -> fs1 !! q = fs !! q)
        /\ loop (r :: script) fs
           = (let '(e, fs2, tr) := loop script fs1 in
              (e, fs2, Get url (size_or_zero fs partial)
                         (size_or_zero fs partial + chunk_bytes - 1)
                       :: Sleep 5 :: tr))
        /\ (forall r' script',
              script = r' :: script' ->
              known_and remote_size (fun n => n <=? size_or_zero fs1 partial)
              = false ->
              exists tr,
                (loop script fs1).2
                = Get url (size_or_zero fs1 partial)
                    (size_or_zero fs1 partial + chunk_bytes - 1) :: tr)).
Proof.
  split.
  - intros script fs. pose proof (download_loop_prefix script fs) as Hpre.
    split; [exact Hpre|].
    rewrite !size_or_zero_data. apply prefix_length in Hpre. lia.
  - intros r script fs Herr Hgo fs1. subst fs1. repeat split.
    + destruct r as [|pieces|pieces]; simpl.
      * by rewrite app_nil_r.
      * by rewrite partial_data_insert.
      * discriminate.
    + intros q Hq. destruct r as [|pieces|pieces]; simpl; try reflexivity.
      by rewrite lookup_insert_ne.
    + by apply download_loop_error_step.
    + intros r' script' -> Hgo'. by apply download_loop_first_request.
Qed.

End LoopFacts.

Lemma C4_partial_file_never_shrinks_witness :
  let partial := mkPath true ["weights"; "model.ckpt.partial"] in
  let fs : FS := {[ partial := [Byte.x01; Byte.x02] ]} in
  let r := ReadError [[Byte.x03]] in
  let script := [Body [[Byte.x04; Byte.x05; Byte.x06]]] in
  let fs1 := after_error partial r fs in
  partial_data fs1 partial = [Byte.x01; Byte.x02] ++ [Byte.x03]
  /\ download_loop "u" partial (Some 6) 4 (r :: script) fs
     = (let '(e, fs2, tr) := download_loop "u" partial (Some 6) 4 script fs1 in
        (e, fs2, Get "u" 2 5 :: Sleep 5 :: tr))
  /\ exists tr, (download_loop "u" partial (Some 6) 4 script fs1).2
                = Get "u" 3 6 :: tr.
Proof.
  intros partial fs r script fs1.
  destruct (C4_partial_file_never_shrinks "u" partial (Some 6) 4) as [_ H].
  destruct (H r script fs eq_refl eq_refl) as (H1 & _ & H2 & H3).
  split; [exact H1|]. split; [exact H2|].
  exact (H3 (Body [[Byte.x04; Byte.x05; Byte.x06]]) [] eq_refl eq_refl).
Defined.

(** *** After the loop *)

(** With a known, non-zero expected size a mismatch is reported and the
    partial file stays as it is. *)
Lemma verify_final_mismatch (partial dest : Path) (n : Z) (fs : FS) :
  n <> 0 ->
  size_or_zero fs partial <> n ->
  verify_final partial dest (Some n) fs = Run (Returned false) fs [].
Proof.
  intros Hn Hsize. unfold verify_final, known_and.
  apply Z.eqb_neq in Hn, Hsize. by rewrite Hn, Hsize.
Qed.

(** With a matching or an unknown expected size the partial file becomes
    the destination. *)
Lemma verify_final_rename (partial dest : Path) (remote_size : option Z)
    (fs : FS) (data : list Byte.byte) :
  fs !! partial = Some data ->
  remote_size = None \/ remote_size = Some (Z.of_nat (length data)) ->
  verify_final partial dest remote_size fs
  = Run (Returned true) (<[dest := data]> (delete partial fs))
        [Rename partial dest].
Proof.
  intros Hp Hrs. unfold verify_final, known_and, rename, size_or_zero.
  rewrite Hp. destruct Hrs as [-> | ->]; [reflexivity|].
  rewrite Z.eqb_refl. cbn [negb]. by rewrite andb_false_r.
Qed.

(** C5, at an expected size of zero.  The HEAD probe reports
    [Content-Length: 0], the ranged GET delivers three bytes: the final size
    (3) differs from the known expected size (0), and still the partial file
    is renamed to the destination and the call returns [True]. *)
Theorem C5_zero_expected_size_is_not_checked :
  let partial := mkPath true ["weights"; "model.ckpt.partial"] in
  let r := download_with_resume "u" model_ckpt 10 (HeadHeaders (Digits 0))
             [Body [three_bytes]] ∅ in
  get_remote_size (HeadHeaders (Digits 0)) = Return (Some 0)
  /\ verify_final partial model_ckpt (Some 0) {[ partial := three_bytes ]}
     = Run (Returned true) {[ model_ckpt := three_bytes ]}
           [Rename partial model_ckpt]
  /\ outcome r = Returned true
  /\ files r !! partial = None
  /\ files r !! model_ckpt = Some three_bytes
  /\ trace r = [Head "u"; Mkdir (parent model_ckpt); Get "u" 0 10485759;
                Rename partial model_ckpt].
Proof. vm_compute. repeat split. Qed.

(** *** The loop, one response at a time *)

Section LoopSteps.
Variables (url : string) (partial : Path) (remote_size : option Z)
          (chunk_bytes : Z).

#[local] Abbreviation loop := (download_loop url partial remote_size chunk_bytes).

Lemma download_loop_done (script : list response) (fs : FS) :
  known_and remote_size (fun n => n <=? size_or_zero fs partial) = true ->
  loop script fs = (LoopBreak, fs, []).
Proof. intros Hdone. destruct script; simpl; by rewrite Hdone. Qed.

Lemma download_loop_nil (fs : FS) :
  loop [] fs
  = if known_and remote_size (fun n => n <=? size_or_zero fs partial)
    then (LoopBreak, fs, []) else (LoopWaiting, fs, []).
Proof. reflexivity. Qed.

Lemma download_loop_step (r : response) (script : list response) (fs : FS) :
  known_and remote_size (fun n => n <=? size_or_zero fs partial) = false ->
  loop (r :: script) fs
  = (let fs1 := after_response partial r fs in
     let req := Get url (size_or_zero fs partial)
                  (size_or_zero fs partial + chunk_bytes - 1) in
     if network_error r then prefixed [req; Sleep 5] (loop script fs1)
     else if after_body chunk_bytes (Z.of_nat (length (delivered r)))
          then (LoopBreak, fs1, [req])
          else prefixed [req] (loop script fs1)).
Proof.
  intros Hgo. cbn [download_loop]. rewrite Hgo. unfold prefixed.
  destruct r as [|pieces|pieces]; cbn [network_error delivered after_response].
  - reflexivity.
  - rewrite append_body_spec. destruct (body_ends pieces); reflexivity.
  - rewrite append_body_spec. reflexivity.
Qed.

Lemma after_response_data (r : response) (fs : FS) :
  partial_data (after_response partial r fs) partial
  = partial_data fs partial ++ delivered r.
Proof.
  destruct r; cbn [after_response delivered];
    by rewrite ?partial_data_insert, ?app_nil_r.
Qed.

Lemma after_response_other (r : response) (fs : FS) (q : Path) :
  q <> partial -> after_response partial r fs !! q = fs !! q.
Proof.
  intros Hq. destruct r; cbn [after_response]; by rewrite ?lookup_insert_ne.
Qed.

Lemma after_response_size (r : response) (fs : FS) :
  size_or_zero (after_response partial r fs) partial
  = size_or_zero fs partial + Z.of_nat (length (delivered r)).
Proof.
  rewrite !size_or_zero_data, after_response_data, length_app. lia.
Qed.

(** The loop touches no file but the partial one. *)
Lemma download_loop_other (script : list response) (fs : FS) (q : Path) :
  q <> partial -> (loop script fs).1.2 !! q = fs !! q.
Proof.
  intros Hq. revert fs. induction script as [|r script IH]; intros fs.
  - simpl. by destruct (known_and _ _).
  - destruct (known_and remote_size (fun n => n <=? size_or_zero fs partial))
      eqn:Hgo; [by rewrite download_loop_done|].
    rewrite download_loop_step by done. cbv zeta.
    specialize (IH (after_response partial r fs)).
    destruct (loop script _) as [[e fs2] tr]. cbn in IH.
    destruct (network_error r); [|destruct (after_body _ _)]; cbn;
      rewrite ?IH; by apply after_response_other.
Qed.

Lemma loop_event_weaken (start start' : Z) (e : event) :
  start <= start' ->
  loop_event url chunk_bytes start' e -> loop_event url chunk_bytes start e.
Proof.
  intros Hle. destruct e; cbn; try done. intros (? & ? & ?).
  repeat split; [done|lia|done].
Qed.

Lemma download_loop_events (script : list response) (fs : FS) :
  Forall (loop_event url chunk_bytes (size_or_zero fs partial)) (loop script fs).2.
Proof.
  revert fs. induction script as [|r script IH]; intros fs.
  - simpl. destruct (known_and _ _); constructor.
  - destruct (known_and remote_size (fun n => n <=? size_or_zero fs partial))
      eqn:Hgo; [rewrite download_loop_done by done; constructor|].
    rewrite download_loop_step by done. cbv zeta.
    assert (Hreq : loop_event url chunk_bytes (size_or_zero fs partial)
                     (Get url (size_or_zero fs partial)
                        (size_or_zero fs partial + chunk_bytes - 1))).
    { cbn. repeat split; lia. }
    assert (Hrest : Forall (loop_event url chunk_bytes (size_or_zero fs partial))
                      (loop script (after_response partial r fs)).2).
    { eapply Forall_impl; [apply IH|]. intros e. apply loop_event_weaken.
      rewrite after_response_size. lia. }
    destruct (loop script _) as [[e fs2] tr]. cbn in Hrest.
    destruct (network_error r); [|destruct (after_body _ _)]; cbn;
      repeat constructor; done.
Qed.

End LoopSteps.

(** *** A server that honours ranges *)

Section HonestServer.
Variables (url : string) (partial : Path) (content : list Byte.byte)
          (chunk_bytes : Z).
Hypothesis chunk_positive : 0 < chunk_bytes.
Hypothesis content_nonempty : content <> [].

#[local] Abbreviation total := (Z.of_nat (length content)).
#[local] Abbreviation honest_loop :=
  (download_loop url partial (Some total) chunk_bytes).

Lemma total_nonzero : total <> 0.
Proof. destruct content; [done|]. simpl. lia. Qed.

Lemma known_total (test : Z -> bool) :
  known_and (Some total) test = test total.
Proof.
  unfold known_and. pose proof total_nonzero as Hn.
  apply Z.eqb_neq in Hn. by rewrite Hn.
Qed.

Lemma prefix_is_take (data : list Byte.byte) :
  data `prefix_of` content -> data = take (length data) content.
Proof. intros [k ->]. by rewrite take_app_length. Qed.

Lemma served_length (offset : nat) :
  length (served content chunk_bytes offset)
  = Nat.min (Z.to_nat chunk_bytes) (length content - offset).
Proof. unfold served. by rewrite length_take, length_drop. Qed.

Lemma served_prefix (data : list Byte.byte) :
  data `prefix_of` content ->
  data ++ served content chunk_bytes (length data) `prefix_of` content.
Proof.
  intros Hpre. rewrite (prefix_is_take data Hpre) at 1.
  rewrite <- (take_drop (length data) content) at 3.
  apply prefix_app. unfold served. apply prefix_take.
Qed.

(** A short answer is the end of the file. *)
Lemma served_last (data : list Byte.byte) :
  data `prefix_of` content ->
  Z.of_nat (length (served content chunk_bytes (length data))) < chunk_bytes ->
  data ++ served content chunk_bytes (length data) = content.
Proof.
  intros Hpre Hshort. rewrite served_length in Hshort.
  unfold served. rewrite take_ge by (rewrite length_drop; lia).
  rewrite (prefix_is_take data Hpre) at 1. apply take_drop.
Qed.

(** Whatever fails on the way, the partial file stays a prefix of the
    remote file, and when the loop ends it holds all of it. *)
Lemma download_loop_honest (script : list response) (fs : FS) :
  partial_data fs partial `prefix_of` content ->
  honours content chunk_bytes (length (partial_data fs partial)) script ->
  partial_data (honest_loop script fs).1.2 partial `prefix_of` content
  /\ ((honest_loop script fs).1.1 = LoopBreak ->
      partial_data (honest_loop script fs).1.2 partial = content).
Proof.
  revert fs. induction script as [|r script IH]; intros fs Hpre Hhon.
  - rewrite download_loop_nil, known_total.
    destruct (total <=? size_or_zero fs partial) eqn:Hdone; cbn.
    + split; [done|]. intros _. apply prefix_length_eq; [done|].
      rewrite size_or_zero_data in Hdone. lia.
    + by split.
  - destruct (known_and (Some total) (fun n => n <=? size_or_zero fs partial))
      eqn:Hgo.
    { rewrite download_loop_done by done. cbn. split; [done|]. intros _.
      rewrite known_total in Hgo. apply prefix_length_eq; [done|].
      rewrite size_or_zero_data in Hgo. lia. }
    rewrite download_loop_step by done. cbv zeta.
    rewrite known_total, size_or_zero_data in Hgo.
    assert (Hnext : partial_data (after_response partial r fs) partial
                      `prefix_of` content
                    /\ honours content chunk_bytes
                         (length (partial_data (after_response partial r fs) partial))
                         script
                    /\ (network_error r = false ->
                        delivered r
                        = served content chunk_bytes
                            (length (partial_data fs partial)))).
    { rewrite after_response_data, length_app.
      inversion Hhon as [|? ? Hrest|? ? ? Hends Hw Hrest|? ? ? Hw Hrest]; subst;
        cbn [delivered network_error].
      - rewrite app_nil_r, Nat.add_0_r. by repeat split.
      - rewrite Hends. split; [|by split].
        etrans; [|by apply served_prefix]. by apply prefix_app.
      - rewrite Hw. split; [by apply served_prefix|]. by split. }
    destruct Hnext as (Hpre1 & Hhon1 & Hbody).
    specialize (IH _ Hpre1 Hhon1).
    destruct (honest_loop script (after_response partial r fs)) as [[e fs2] tr].
    cbn in IH. destruct (network_error r); [exact IH|].
    unfold after_body. rewrite (Hbody eq_refl).
    destruct (Z.of_nat (length (served content chunk_bytes _)) =? 0) eqn:Hzero.
    { apply Z.eqb_eq in Hzero. rewrite served_length in Hzero. lia. }
    destruct (Z.of_nat (length (served content chunk_bytes _)) <? chunk_bytes)
      eqn:Hshort; [|exact IH].
    cbn. rewrite after_response_data, (Hbody eq_refl).
    split; [by apply served_prefix|]. intros _.
    apply served_last; [done|lia].
Qed.

Lemma honours_range_server (offset count : nat) :
  honours content chunk_bytes offset
    (range_server content chunk_bytes offset count).
Proof.
  revert offset. induction count as [|count IH]; intros offset; cbn.
  - constructor.
  - constructor; [|apply IH].
    cbn. destruct (served content chunk_bytes offset); cbn;
      by rewrite ?app_nil_r.
Qed.

(** Without failures the loop ends once the server has answered often
    enough: one answer per byte still missing is more than it needs. *)
Lemma download_loop_range_server (count : nat) (fs : FS) :
  partial_data fs partial `prefix_of` content ->
  (length content - length (partial_data fs partial) <= count)%nat ->
  (honest_loop
     (range_server content chunk_bytes (length (partial_data fs partial)) count)
     fs).1.1 = LoopBreak.
Proof.
  revert fs. induction count as [|count IH]; intros fs Hpre Hcount.
  - cbn [range_server]. rewrite download_loop_nil, known_total, size_or_zero_data.
    destruct (total <=? _) eqn:Hdone; [done|]. lia.
  - destruct (known_and (Some total) (fun n => n <=? size_or_zero fs partial))
      eqn:Hgo; [by rewrite download_loop_done|].
    cbn [range_server]. rewrite download_loop_step by done. cbv zeta.
    rewrite known_total, size_or_zero_data in Hgo.
    cbn [network_error delivered].
    set (r := Body [served content chunk_bytes (length (partial_data fs partial))]).
    assert (Hw : written [served content chunk_bytes (length (partial_data fs partial))]
                 = served content chunk_bytes (length (partial_data fs partial))).
    { cbn. destruct (served _ _ _); cbn; by rewrite ?app_nil_r. }
    rewrite Hw. unfold after_body.
    destruct (_ =? 0); [done|]. destruct (_ <? chunk_bytes); [done|].
    assert (Hdata : partial_data (after_response partial r fs) partial
                    = partial_data fs partial
                      ++ served content chunk_bytes (length (partial_data fs partial))).
    { rewrite after_response_data. subst r. cbn [delivered]. by rewrite Hw. }
    specialize (IH (after_response partial r fs)).
    rewrite Hdata, length_app in IH.
    destruct (honest_loop _ (after_response partial r fs)) as [[e fs2] tr] eqn:Hrun.
    cbn. cbn in IH. apply IH; [by apply served_prefix|].
    rewrite served_length. lia.
Qed.

End HonestServer.

(** *** The whole call *)

Lemma partial_of_spec (dest : Path) :
  parts dest <> [] ->
  with_suffix dest (suffix dest +:+ ".partial") = Return (partial_of dest)
  /\ partial_of dest <> dest.
Proof.
  intros Hne. destruct (partial_path dest Hne) as (partial & Hp & -> & Hd).
  by split.
Qed.

(** The call after the probe has answered. *)
Lemma download_unfold (url : string) (dest : Path) (chunk_size_mb : Z)
    (head : head_response) (remote_size : option Z) (script : list response)
    (fs : FS) :
  parts dest <> [] ->
  get_remote_size head = Return remote_size ->
  download_with_resume url dest chunk_size_mb head script fs
  = match fs !! dest with
    | Some data =>
        if known_and remote_size (fun n => Z.of_nat (length data) =? n)
        then Run (Returned true) fs [Head url]
        else prepend [Head url; Unlink dest]
               (resume_and_download url (partial_of dest) dest remote_size
                  (chunk_size_mb * 1024 * 1024) script (delete dest fs))
    | None =>
        prepend [Head url]
          (resume_and_download url (partial_of dest) dest remote_size
             (chunk_size_mb * 1024 * 1024) script fs)
    end.
Proof.
  intros Hne Hhead. destruct (partial_of_spec dest Hne) as [Hp _].
  unfold download_with_resume. by rewrite Hp, Hhead.
Qed.

Lemma partial_data_lookup (fs : FS) (partial : Path) :
  partial_data fs partial <> [] ->
  fs !! partial = Some (partial_data fs partial).
Proof. unfold partial_data. by destruct (fs !! partial). Qed.

Lemma rename_lookups (partial dest : Path) (fs : FS) (data : list Byte.byte) :
  partial <> dest ->
  fs !! partial = Some data ->
  rename partial dest fs = Return (<[dest := data]> (delete partial fs))
  /\ <[dest := data]> (delete partial fs) !! dest = Some data
  /\ <[dest := data]> (delete partial fs) !! partial = None.
Proof.
  intros Hne Hp. unfold rename. rewrite Hp. split; [done|].
  split; [by rewrite lookup_insert_eq|].
  rewrite lookup_insert_ne by done. by rewrite lookup_delete_eq.
Qed.

(** From the resume check on, against a server that honours ranges: the
    call is still waiting for the network, or it has returned [True] with
    the whole remote file at the destination. *)
Lemma resume_honest (url : string) (partial dest : Path)
    (content : list Byte.byte) (chunk_bytes : Z) (script : list response)
    (fs : FS) :
  0 < chunk_bytes -> content <> [] -> partial <> dest ->
  partial_data fs partial `prefix_of` content ->
  honours content chunk_bytes (length (partial_data fs partial)) script ->
  let r := resume_and_download url partial dest
             (Some (Z.of_nat (length content))) chunk_bytes script fs in
  (outcome r = Returned true /\ files r !! dest = Some content
   /\ files r !! partial = None)
  \/ (outcome r = Waiting
      /\ (download_loop url partial (Some (Z.of_nat (length content)))
            chunk_bytes script fs).1.1 = LoopWaiting).
Proof.
  intros Hchunk Hcontent Hne Hpre Hhon r. subst r.
  unfold resume_and_download. rewrite (known_total content Hcontent).
  destruct ((0 <? size_or_zero fs partial)
            && (Z.of_nat (length content) <=? size_or_zero fs partial)) eqn:Hfull.
  - apply andb_true_iff in Hfull as [Hpos Hall].
    rewrite size_or_zero_data in Hpos, Hall.
    assert (Hdata : partial_data fs partial = content)
      by (apply prefix_length_eq; [done|lia]).
    destruct (rename_lookups partial dest fs content Hne) as (-> & Hd & Hp).
    { rewrite <- Hdata. apply partial_data_lookup. by rewrite Hdata. }
    left. by repeat split.
  - destruct (download_loop_honest url partial content chunk_bytes Hchunk
                Hcontent script fs Hpre Hhon) as [_ Hbreak].
    destruct (download_loop url partial _ chunk_bytes script fs)
      as [[[] fs1] tr]; cbn in Hbreak.
    + specialize (Hbreak eq_refl). left.
      unfold verify_final. rewrite (known_total content Hcontent).
      rewrite size_or_zero_data, Hbreak, Z.eqb_refl. cbn [negb].
      destruct (rename_lookups partial dest fs1 content Hne) as (-> & Hd & Hp).
      { rewrite <- Hbreak. apply partial_data_lookup. by rewrite Hbreak. }
      by repeat split.
    + right. by split.
Qed.

Lemma rename_other (partial dest q : Path) (fs : FS) :
  q <> dest -> q <> partial ->
  match rename partial dest fs with
  | Return fs' => fs' !! q = fs !! q
  | Raise _ => True
  end.
Proof.
  intros Hd Hp. unfold rename. destruct (fs !! partial); [|done].
  rewrite lookup_insert_ne by done. by rewrite lookup_delete_ne.
Qed.

(** From the resume check on, only the destination and the partial file
    are touched. *)
Lemma resume_other (url : string) (partial dest : Path)
    (remote_size : option Z) (chunk_bytes : Z) (script : list response)
    (fs : FS) (q : Path) :
  q <> dest -> q <> partial ->
  files (resume_and_download url partial dest remote_size chunk_bytes script fs)
    !! q = fs !! q.
Proof.
  intros Hd Hp. unfold resume_and_download.
  destruct (_ && _).
  - pose proof (rename_other partial dest q fs Hd Hp) as Hr.
    by destruct (rename partial dest fs).
  - pose proof (download_loop_other url partial remote_size chunk_bytes script
                  fs q Hp) as Hloop.
    destruct (download_loop _ _ _ _ script fs) as [[[] fs1] tr]; cbn in *;
      [|done].
    unfold verify_final. destruct (known_and _ _); [done|].
    pose proof (rename_other partial dest q fs1 Hd Hp) as Hr.
    destruct (rename partial dest fs1); cbn; congruence.
Qed.

Lemma download_other (url : string) (dest : Path) (chunk_size_mb : Z)
    (head : head_response) (script : list response) (fs : FS) (q : Path) :
  parts dest <> [] -> q <> dest -> q <> partial_of dest ->
  files (download_with_resume url dest chunk_size_mb head script fs) !! q
  = fs !! q.
Proof.
  intros Hne Hd Hp. destruct (get_remote_size head) as [rs|e] eqn:Hhead.
  - rewrite (download_unfold url dest chunk_size_mb head rs script fs Hne Hhead).
    destruct (fs !! dest) as [data|] eqn:Hdest.
    + destruct (known_and _ _); [done|]. cbn.
      rewrite resume_other by done. by rewrite lookup_delete_ne.
    + cbn. by rewrite resume_other.
  - destruct (partial_of_spec dest Hne) as [Hw _].
    unfold download_with_resume. by rewrite Hw, Hhead.
Qed.


(** X1.  Against a server that honours ranges, with the destination absent
    and the partial file a prefix of the remote file: whatever requests fail
    and however often, [download_with_resume] is either still waiting for
    the network or has returned [True] with exactly the remote content at
    the destination and the partial file gone.  It never reports a size
    mismatch. *)
Theorem X1_honest_server_integrity (url : string) (dest : Path)
    (chunk_size_mb : Z) (content : list Byte.byte) (script : list response)
    (fs : FS) :
  parts dest <> [] ->
  fs !! dest = None ->
  0 < chunk_size_mb ->
  content <> [] ->
  partial_data fs (partial_of dest) `prefix_of` content ->
  honours content (chunk_size_mb * 1024 * 1024)
    (length (partial_data fs (partial_of dest))) script ->
  let r := download_with_resume url dest chunk_size_mb
             (HeadHeaders (Digits (Z.of_nat (length content)))) script fs in
  outcome r = Waiting
  \/ (outcome r = Returned true /\ files r !! dest = Some content
      /\ files r !! partial_of dest = None).
Proof.
  intros Hne Hdest Hchunk Hcontent Hpre Hhon r. subst r.
  destruct (partial_of_spec dest Hne) as [_ Hp].
  rewrite (download_unfold url dest chunk_size_mb
             (HeadHeaders (Digits (Z.of_nat (length content))))
             (Some (Z.of_nat (length content))) script fs Hne eq_refl).
  rewrite Hdest.
  destruct (resume_honest url (partial_of dest) dest content
              (chunk_size_mb * 1024 * 1024) script fs) as [H|[H _]];
    try done; [lia|by right|by left].
Qed.

(** Against a server that answers every request the call completes. *)
Lemma download_completes (url : string) (dest : Path) (chunk_size_mb : Z)
    (content : list Byte.byte) (count : nat) (fs : FS) :
  parts dest <> [] ->
  fs !! dest = None ->
  0 < chunk_size_mb ->
  content <> [] ->
  partial_data fs (partial_of dest) `prefix_of` content ->
  (length content - length (partial_data fs (partial_of dest)) <= count)%nat ->
  let r := download_with_resume url dest chunk_size_mb
             (HeadHeaders (Digits (Z.of_nat (length content))))
             (range_server content (chunk_size_mb * 1024 * 1024)
                (length (partial_data fs (partial_of dest))) count) fs in
  outcome r = Returned true /\ files r !! dest = Some content
  /\ files r !! partial_of dest = None.
Proof.
  intros Hne Hdest Hchunk Hcontent Hpre Hcount r. subst r.
  destruct (partial_of_spec dest Hne) as [_ Hp].
  rewrite (download_unfold url dest chunk_size_mb
             (HeadHeaders (Digits (Z.of_nat (length content))))
             (Some (Z.of_nat (length content))) _ fs Hne eq_refl).
  rewrite Hdest.
  assert (Hc : 0 < chunk_size_mb * 1024 * 1024) by lia.
  destruct (resume_honest url (partial_of dest) dest content
              (chunk_size_mb * 1024 * 1024)
              (range_server content (chunk_size_mb * 1024 * 1024)
                 (length (partial_data fs (partial_of dest))) count) fs)
    as [H|[_ Hwait]]; try done.
  - apply honours_range_server.
  - rewrite download_loop_range_server in Hwait by done. discriminate.
Qed.

(** X2.  When that server answers every request, a count of answers equal
    to the bytes still missing is enough: the call returns [True] with the
    remote content at the destination, from whatever length the partial
    file had. *)
Theorem X2_resume_completes (url : string) (dest : Path) (chunk_size_mb : Z)
    (content : list Byte.byte) (count : nat) (fs : FS) :
  parts dest <> [] ->
  fs !! dest = None ->
  0 < chunk_size_mb ->
  content <> [] ->
  partial_data fs (partial_of dest) `prefix_of` content ->
  (length content - length (partial_data fs (partial_of dest)) <= count)%nat ->
  let r := download_with_resume url dest chunk_size_mb
             (HeadHeaders (Digits (Z.of_nat (length content))))
             (range_server content (chunk_size_mb * 1024 * 1024)
                (length (partial_data fs (partial_of dest))) count) fs in
  outcome r = Returned true /\ files r !! dest = Some content
  /\ files r !! partial_of dest = None.
Proof. apply download_completes. Qed.

(** X3.  [download_with_resume] changes no file other than the destination
    and its partial file, whatever the server does. *)
Theorem X3_only_destination_and_partial_change (url : string) (dest : Path)
    (chunk_size_mb : Z) (head : head_response) (script : list response)
    (fs : FS) (q : Path) :
  parts dest <> [] -> q <> dest -> q <> partial_of dest ->
  files (download_with_resume url dest chunk_size_mb head script fs) !! q
  = fs !! q.
Proof. apply download_other. Qed.


(** X5.  A partial file at least as long as the reported size is renamed
    to the destination at once, longer or not: the call returns [True]
    after the probe without a single GET. *)
Theorem X5_complete_partial_is_promoted (url : string) (dest : Path)
    (chunk_size_mb n : Z) (script : list response) (fs : FS)
    (data : list Byte.byte) :
  parts dest <> [] ->
  fs !! dest = None ->
  fs !! partial_of dest = Some data ->
  0 < n ->
  n <= Z.of_nat (length data) ->
  download_with_resume url dest chunk_size_mb (HeadHeaders (Digits n)) script fs
  = Run (Returned true) (<[dest := data]> (delete (partial_of dest) fs))
        [Head url; Rename (partial_of dest) dest].
Proof.
  intros Hne Hdest Hpartial Hn Hlen.
  rewrite (download_unfold url dest chunk_size_mb (HeadHeaders (Digits n))
             (Some n) script fs Hne eq_refl).
  rewrite Hdest. unfold resume_and_download, size_or_zero, known_and, rename.
  rewrite Hpartial.
  replace (0 <? Z.of_nat (length data)) with true by (symmetry; lia).
  replace (n =? 0) with false by (symmetry; lia).
  replace (n <=? Z.of_nat (length data)) with true by (symmetry; lia).
  reflexivity.
Qed.

(** X6.  The download loop issues nothing but ranged GETs and sleeps: every
    GET goes to the URL, asks for exactly [chunk_bytes] bytes and starts at
    or after the length the partial file had on entry; every sleep is 5
    seconds. *)
Theorem X6_loop_requests (url : string) (partial : Path)
    (remote_size : option Z) (chunk_bytes : Z) (script : list response)
    (fs : FS) :
  Forall (loop_event url chunk_bytes (size_or_zero fs partial))
    (download_loop url partial remote_size chunk_bytes script fs).2.
Proof. apply download_loop_events. Qed.

Lemma X1_honest_server_integrity_witness :
  let r := download_with_resume "u" model_ckpt 1 (HeadHeaders (Digits 6))
             faulty_script two_of_six in
  outcome r = Waiting
  \/ (outcome r = Returned true /\ files r !! model_ckpt = Some six_bytes
      /\ files r !! model_ckpt_partial = None).
Proof.
  apply (X1_honest_server_integrity "u" model_ckpt 1 six_bytes faulty_script
           two_of_six).
  - discriminate.
  - reflexivity.
  - lia.
  - discriminate.
  - exists [Byte.x03; Byte.x04; Byte.x05; Byte.x06]. reflexivity.
  - change (length (partial_data two_of_six (partial_of model_ckpt))) with 2%nat.
    apply honours_connect. apply honours_read.
    + reflexivity.
    + exists [Byte.x04; Byte.x05; Byte.x06]. vm_compute. reflexivity.
    + apply honours_body; [vm_compute; reflexivity|]. apply honours_nil.
Defined.

Lemma X2_resume_completes_witness :
  let r := download_with_resume "u" model_ckpt 1 (HeadHeaders (Digits 6))
             (range_server six_bytes (1 * 1024 * 1024) 2 4) two_of_six in
  outcome r = Returned true /\ files r !! model_ckpt = Some six_bytes
  /\ files r !! model_ckpt_partial = None.
Proof.
  apply (X2_resume_completes "u" model_ckpt 1 six_bytes 4 two_of_six).
  - discriminate.
  - reflexivity.
  - lia.
  - discriminate.
  - exists [Byte.x03; Byte.x04; Byte.x05; Byte.x06]. reflexivity.
  - vm_compute. lia.
Defined.

Lemma X3_only_destination_and_partial_change_witness :
  files (download_with_resume "u" model_ckpt 1 (HeadHeaders (Digits 6))
           faulty_script two_of_six) !! mkPath true ["weights"; "config.yaml"]
  = two_of_six !! mkPath true ["weights"; "config.yaml"].
Proof.
  apply (X3_only_destination_and_partial_change "u" model_ckpt 1
           (HeadHeaders (Digits 6)) faulty_script two_of_six
           (mkPath true ["weights"; "config.yaml"])); discriminate.
Defined.


Lemma X5_complete_partial_is_promoted_witness :
  download_with_resume "u" model_ckpt 1 (HeadHeaders (Digits 1)) [] two_of_six
  = Run (Returned true)
        (<[model_ckpt := [Byte.x01; Byte.x02]]>
           (delete (partial_of model_ckpt) two_of_six))
        [Head "u"; Rename (partial_of model_ckpt) model_ckpt].
Proof.
  apply (X5_complete_partial_is_promoted "u" model_ckpt 1 1 [] two_of_six
           [Byte.x01; Byte.x02]).
  - discriminate.
  - reflexivity.
  - reflexivity.
  - lia.
  - simpl. lia.
Defined.

(** *** [main] *)

Lemma dest_in_dir (dest_dir : Path) (local_name : string) :
  local_name <> "" -> local_name <> "." ->
  dest_dir </> local_name
  = mkPath (anchored dest_dir) (parts dest_dir ++ [local_name])
  /\ parts (dest_dir </> local_name) <> []
  /\ partial_of (dest_dir </> local_name)
     = mkPath (anchored dest_dir) (parts dest_dir ++ [local_name +:+ ".partial"]).
Proof.
  intros H1 H2. rewrite joinseg_segment by done.
  split; [done|]. split; [by destruct (parts dest_dir)|].
  unfold partial_of, PathLib.name. cbn [anchored parts].
  by rewrite removelast_last, last_last.
Qed.

(** The two files of [FILES] and their partial files are four paths. *)
Lemma config_apart_from_model (dest_dir : Path) :
  dest_dir </> "config.yaml" <> dest_dir </> "model.ckpt"
  /\ dest_dir </> "config.yaml" <> partial_of (dest_dir </> "model.ckpt").
Proof.
  destruct (dest_in_dir dest_dir "config.yaml") as (-> & _ & _); [done..|].
  destruct (dest_in_dir dest_dir "model.ckpt") as (-> & _ & ->); [done..|].
  split; intros [= H%app_inj_tail]; by destruct H.
Qed.

(** X7.  [main] fetches config.yaml and then model.ckpt.  When the first
    download returns, the second one starts from the files it left, changes
    nothing at the first destination, and the exit status is 0 exactly when
    both downloads returned [True] (1 when either returned [False]; the
    second file is attempted either way). *)
Theorem X7_main_fetches_both_files (dest_dir : Path) (chunk_size : Z)
    (server : Server) (fs : FS) (ok1 : bool) :
  let url1 := hf_url REPO_ID "config.yaml" in
  let url2 := hf_url REPO_ID "model.ckpt" in
  let r1 := download_with_resume url1 (dest_dir </> "config.yaml") chunk_size
              (server url1).1 (server url1).2 fs in
  let r2 := download_with_resume url2 (dest_dir </> "model.ckpt") chunk_size
              (server url2).1 (server url2).2 (files r1) in
  outcome r1 = Returned ok1 ->
  (main dest_dir chunk_size server fs).1.2 = files r2
  /\ (main dest_dir chunk_size server fs).2
     = Mkdir dest_dir :: trace r1 ++ trace r2
  /\ files r2 !! (dest_dir </> "config.yaml")
     = files r1 !! (dest_dir </> "config.yaml")
  /\ ((main dest_dir chunk_size server fs).1.1 = Exit 0
      <-> ok1 = true /\ outcome r2 = Returned true)
  /\ (forall ok2, outcome r2 = Returned ok2 ->
        (main dest_dir chunk_size server fs).1.1
        = Exit (if ok1 && ok2 then 0 else 1)).
Proof.
  intros url1 url2 r1 r2 Hr1.
  destruct (config_apart_from_model dest_dir) as [Hd Hp].
  destruct (dest_in_dir dest_dir "model.ckpt") as (_ & Hne & _); [done..|].
  assert (Hmain : main dest_dir chunk_size server fs
                  = (match outcome r2 with
                     | Returned ok2 => Exit (if ok1 && ok2 then 0 else 1)
                     | Raised e => MainRaised e
                     | Waiting => MainWaiting
                     end, files r2, Mkdir dest_dir :: trace r1 ++ trace r2)).
  { unfold main. cbn [FILES download_files]. fold url1 url2 r1. rewrite Hr1.
    fold r2. destruct (outcome r2) as [ok2| |] eqn:Hr2; cbn; rewrite ?Hr2;
      cbn; rewrite ?app_nil_r; try done.
    by destruct ok1, ok2. }
  rewrite Hmain. cbn [fst snd].
  split; [reflexivity|]. split; [reflexivity|].
  split; [by apply download_other|]. split.
  - destruct (outcome r2) as [[]| |], ok1; cbn; split;
      try (intros [=]); try (intros [[=] [=]]); done.
  - intros ok2 ->. reflexivity.
Qed.

Lemma X7_main_fetches_both_files_witness :
  let url1 := hf_url REPO_ID "config.yaml" in
  let url2 := hf_url REPO_ID "model.ckpt" in
  let r1 := download_with_resume url1 (weights_dir </> "config.yaml") 1
              (three_byte_server url1).1 (three_byte_server url1).2 ∅ in
  let r2 := download_with_resume url2 (weights_dir </> "model.ckpt") 1
              (three_byte_server url2).1 (three_byte_server url2).2 (files r1) in
  (main weights_dir 1 three_byte_server ∅).1.2 = files r2
  /\ (main weights_dir 1 three_byte_server ∅).2
     = Mkdir weights_dir :: trace r1 ++ trace r2
  /\ files r2 !! (weights_dir </> "config.yaml")
     = files r1 !! (weights_dir </> "config.yaml")
  /\ ((main weights_dir 1 three_byte_server ∅).1.1 = Exit 0
      <-> true = true /\ outcome r2 = Returned true)
  /\ (forall ok2, outcome r2 = Returned ok2 ->
        (main weights_dir 1 three_byte_server ∅).1.1
        = Exit (if true && ok2 then 0 else 1)).
Proof.
  apply (X7_main_fetches_both_files weights_dir 1 three_byte_server ∅ true).
  vm_compute. reflexivity.
Defined.

(** *** Interrupting and running again *)

(** A call that is still waiting against a server that honours ranges has
    left no destination, and a partial file that extends the old one and is
    a prefix of the remote file. *)
Lemma download_waiting_state (url : string) (dest : Path) (chunk_size_mb : Z)
    (content : list Byte.byte) (script : list response) (fs : FS) :
  parts dest <> [] ->
  fs !! dest = None ->
  0 < chunk_size_mb ->
  content <> [] ->
  partial_data fs (partial_of dest) `prefix_of` content ->
  honours content (chunk_size_mb * 1024 * 1024)
    (length (partial_data fs (partial_of dest))) script ->
  let r := download_with_resume url dest chunk_size_mb
             (HeadHeaders (Digits (Z.of_nat (length content)))) script fs in
  outcome r = Waiting ->
  files r !! dest = None
  /\ partial_data (files r) (partial_of dest) `prefix_of` content
  /\ partial_data fs (partial_of dest)
       `prefix_of` partial_data (files r) (partial_of dest).
Proof.
  intros Hne Hdest Hchunk Hcontent Hpre Hhon r. subst r.
  destruct (partial_of_spec dest Hne) as [_ Hp].
  rewrite (download_unfold url dest chunk_size_mb
             (HeadHeaders (Digits (Z.of_nat (length content))))
             (Some (Z.of_nat (length content))) script fs Hne eq_refl).
  rewrite Hdest. cbn [prepend outcome files].
  assert (Hc : 0 < chunk_size_mb * 1024 * 1024) by lia.
  destruct (download_loop_honest url (partial_of dest) content
              (chunk_size_mb * 1024 * 1024) Hc Hcontent script fs Hpre Hhon)
    as [Hprefix _].
  pose proof (download_loop_other url (partial_of dest)
                (Some (Z.of_nat (length content)))
                (chunk_size_mb * 1024 * 1024) script fs dest
                (not_eq_sym Hp)) as Hother.
  pose proof (download_loop_prefix url (partial_of dest)
                (Some (Z.of_nat (length content)))
                (chunk_size_mb * 1024 * 1024) script fs) as Hmono.
  unfold resume_and_download.
  destruct (_ && _).
  { destruct (rename _ _ _); cbn; discriminate. }
  destruct (download_loop _ _ _ _ script fs) as [[[] fs1] tr]; cbn in *.
  - unfold verify_final. destruct (known_and _ _); cbn; [discriminate|].
    destruct (rename _ _ _); cbn; discriminate.
  - intros _. split; [congruence|]. by split.
Qed.

(** X21.  Safe to interrupt and restart: when a call against a server that
    honours ranges is cut off while it waits for the network, it has lost
    none of the bytes it had, and a second call on the files it left, with
    enough answers from the server, returns [True] with exactly the remote
    content at the destination. *)
Theorem X21_restart_after_interruption (url : string) (dest : Path)
    (chunk_size_mb : Z) (content : list Byte.byte) (script : list response)
    (fs : FS) :
  parts dest <> [] ->
  fs !! dest = None ->
  0 < chunk_size_mb ->
  content <> [] ->
  partial_data fs (partial_of dest) `prefix_of` content ->
  honours content (chunk_size_mb * 1024 * 1024)
    (length (partial_data fs (partial_of dest))) script ->
  let head := HeadHeaders (Digits (Z.of_nat (length content))) in
  let r1 := download_with_resume url dest chunk_size_mb head script fs in
  outcome r1 = Waiting ->
  let r2 := download_with_resume url dest chunk_size_mb head
              (range_server content (chunk_size_mb * 1024 * 1024)
                 (length (partial_data (files r1) (partial_of dest)))
                 (length content))
              (files r1) in
  partial_data fs (partial_of dest)
    `prefix_of` partial_data (files r1) (partial_of dest)
  /\ outcome r2 = Returned true
  /\ files r2 !! dest = Some content
  /\ files r2 !! partial_of dest = None.
Proof.
  intros Hne Hdest Hchunk Hcontent Hpre Hhon head r1 Hwait r2.
  destruct (download_waiting_state url dest chunk_size_mb content script fs
              Hne Hdest Hchunk Hcontent Hpre Hhon Hwait) as (Hd1 & Hp1 & Hmono).
  split; [exact Hmono|].
  apply download_completes; try done. lia.
Qed.

Lemma X21_restart_after_interruption_witness :
  let head := HeadHeaders (Digits 6) in
  let script := [ConnectError; ReadError [[Byte.x03]]] in
  let r1 := download_with_resume "u" model_ckpt 1 head script two_of_six in
  let r2 := download_with_resume "u" model_ckpt 1 head
              (range_server six_bytes (1 * 1024 * 1024)
                 (length (partial_data (files r1) (partial_of model_ckpt)))
                 (length six_bytes))
              (files r1) in
  partial_data two_of_six (partial_of model_ckpt)
    `prefix_of` partial_data (files r1) (partial_of model_ckpt)
  /\ outcome r2 = Returned true
  /\ files r2 !! model_ckpt = Some six_bytes
  /\ files r2 !! partial_of model_ckpt = None.
Proof.
  apply (X21_restart_after_interruption "u" model_ckpt 1 six_bytes
           [ConnectError; ReadError [[Byte.x03]]] two_of_six).
  - discriminate.
  - reflexivity.
  - lia.
  - discriminate.
  - exists [Byte.x03; Byte.x04; Byte.x05; Byte.x06]. reflexivity.
  - change (length (partial_data two_of_six (partial_of model_ckpt))) with 2%nat.
    apply honours_connect. apply honours_read.
    + reflexivity.
    + exists [Byte.x04; Byte.x05; Byte.x06]. vm_compute. reflexivity.
    + apply honours_nil.
  - vm_compute. reflexivity.
Defined.

(** X22.  Running again after a completed download: once a call has put a
    non-empty remote file at the destination, the next call against the
    same reported size returns [True] after its HEAD probe alone and
    leaves every file as it is. *)
Theorem X22_second_run_is_a_probe (url : string) (dest : Path)
    (chunk_size_mb : Z) (content : list Byte.byte) (count : nat)
    (script : list response) (fs : FS) :
  parts dest <> [] ->
  fs !! dest = None ->
  0 < chunk_size_mb ->
  content <> [] ->
  partial_data fs (partial_of dest) `prefix_of` content ->
  (length content - length (partial_data fs (partial_of dest)) <= count)%nat ->
  let head := HeadHeaders (Digits (Z.of_nat (length content))) in
  let r1 := download_with_resume url dest chunk_size_mb head
              (range_server content (chunk_size_mb * 1024 * 1024)
                 (length (partial_data fs (partial_of dest))) count) fs in
  download_with_resume url dest chunk_size_mb head script (files r1)
  = Run (Returned true) (files r1) [Head url].
Proof.
  intros Hne Hdest Hchunk Hcontent Hpre Hcount head r1.
  destruct (download_completes url dest chunk_size_mb content count fs Hne
              Hdest Hchunk Hcontent Hpre Hcount) as (_ & Hd & _).
  apply (download_complete_dest url dest chunk_size_mb _ script (files r1)
           content); try done.
  by apply total_nonzero.
Qed.

Lemma X22_second_run_is_a_probe_witness :
  let head := HeadHeaders (Digits 6) in
  let r1 := download_with_resume "u" model_ckpt 1 head
              (range_server six_bytes (1 * 1024 * 1024) 2 4) two_of_six in
  download_with_resume "u" model_ckpt 1 head faulty_script (files r1)
  = Run (Returned true) (files r1) [Head "u"].
Proof.
  apply (X22_second_run_is_a_probe "u" model_ckpt 1 six_bytes 4 faulty_script
           two_of_six).
  - discriminate.
  - reflexivity.
  - lia.
  - discriminate.
  - exists [Byte.x03; Byte.x04; Byte.x05; Byte.x06]. reflexivity.
  - vm_compute. lia.
Defined.

End FetcherFacts.


(** ** Output directories *)

Section OutputDirFacts.
Import Discovery.

Lemma parent_snoc (a : bool) (l : list string) (x : string) :
  parent (mkPath a (l ++ [x])) = mkPath a l.
Proof.
  unfold parent. cbn [parts anchored].
  destruct (l ++ [x]) eqn:Hl; [by destruct l|].
  by rewrite <- Hl, removelast_last.
Qed.

Lemma stem_snoc (a : bool) (l : list string) (x : string) :
  stem (mkPath a (l ++ [x])) = stem_of_name x.
Proof. unfold stem, PathLib.name. cbn [parts]. by rewrite last_last. Qed.

Lemma strip_prefix_app (pre l : list string) :
  strip_prefix pre (pre ++ l) = Some l.
Proof.
  induction pre as [|a pre IH]; simpl; [reflexivity|].
  destruct (decide (a = a)); [exact IH|done].
Qed.

Lemma removelast_snoc {A} (l : list A) (x : A) : removelast (l ++ [x]) = l.
Proof. apply removelast_last. Qed.

(** An image below the input root, given by its directories and its name. *)
Lemma relative_output_dir_below (anchor : bool) (root dirs : list string)
    (nm : string) (out : Path) :
  relative_output_dir (mkPath anchor (root ++ dirs ++ [nm])) (mkPath anchor root) out
  = Return (mkPath (anchored out) (parts out ++ dirs) </> stem_of_name nm).
Proof.
  unfold relative_output_dir, relative_to. cbn [anchored parts].
  rewrite bool_decide_eq_true_2 by reflexivity.
  rewrite strip_prefix_app.
  unfold parent, stem, PathLib.name, joinpath. cbn [anchored parts].
  rewrite last_last.
  destruct (dirs ++ [nm]) as [|d ds] eqn:Hd; [by destruct dirs|].
  rewrite <- Hd, removelast_snoc. reflexivity.
Qed.

(** A single-file input, with the file's parent directory as root. *)
Lemma relative_output_dir_single (file out : Path) :
  relative_output_dir file (parent file) out = Return (out </> stem file).
Proof.
  destruct file as [fa fps], out as [oa ops].
  destruct fps as [|p ps].
  - unfold relative_output_dir, relative_to, parent, stem, PathLib.name,
      joinpath, joinseg; cbn.
    rewrite bool_decide_eq_true_2 by reflexivity. cbn.
    by rewrite app_nil_r.
  - destruct (exists_last (l := p :: ps)) as (l & x & ->); [discriminate|].
    rewrite parent_snoc, stem_snoc.
    pose proof (relative_output_dir_below fa l [] x (mkPath oa ops)) as H.
    cbn [app anchored parts] in H. rewrite app_nil_r in H. exact H.
Qed.

(** C8.  [relative_output_dir] depends on nothing but its three arguments
    (it takes no world).  For an image at [a/b/c.png] below the input root
    it is [<output_root>/a/b/c], whatever the output root; for a single-file
    input, whose root [main] takes to be the file's parent directory, it is
    [<output_root>/<stem>]. *)
Theorem C8_relative_output_dir (anchor : bool) (root : list string)
    (file out : Path) :
  relative_output_dir (mkPath anchor (root ++ ["a"; "b"; "c.png"]))
                      (mkPath anchor root) out
  = Return (out </> "a" </> "b" </> "c")
  /\ relative_output_dir file (parent file) out = Return (out </> stem file).
Proof.
  split; [|apply relative_output_dir_single].
  change (root ++ ["a"; "b"; "c.png"]) with (root ++ ["a"; "b"] ++ ["c.png"]).
  rewrite (relative_output_dir_below anchor root ["a"; "b"] "c.png" out).
  rewrite !joinseg_segment by (try discriminate; by vm_compute).
  cbn. by rewrite <- !app_assoc.
Qed.

End OutputDirFacts.

(** ** Decimation *)

Section DecimateFacts.
Import Discovery Pipeline.
Context {World : Type} (E : Engines World).

(** C9.  A mesh that loads with at most [max_faces] faces: [decimate_mesh]
    returns the same path and the face count twice, raises nothing, and
    leaves the world as it was (no export took place). *)
Theorem C9_decimate_noop (mesh_path : Path) (max_faces : Z) (w : World)
    (mesh : Mesh E) :
  trimesh_load E mesh_path w = Return mesh ->
  Z.of_nat (length (faces E mesh)) <= max_faces ->
  decimate_mesh E mesh_path max_faces w
  = (w, Return (mesh_path, length (faces E mesh), length (faces E mesh))).
Proof.
  intros Hload Hle. unfold decimate_mesh. rewrite Hload.
  apply Z.leb_le in Hle. by rewrite Hle.
Qed.

End DecimateFacts.

Lemma C9_decimate_noop_witness :
  Pipeline.decimate_mesh (Toy.engines []) (mkPath true ["out"; "bat"; "0"; "mesh.obj"])
    5 0
  = (0, Return (mkPath true ["out"; "bat"; "0"; "mesh.obj"], 2%nat, 2%nat)).
Proof.
  apply (C9_decimate_noop (Toy.engines []) (mkPath true ["out"; "bat"; "0"; "mesh.obj"])
           5 0 [(0, 1, 2); (0, 2, 3)]%nat).
  - reflexivity.
  - simpl. lia.
Defined.

(** ** Strings of paths *)

Section StringFacts.

Lemma app_cons (c : ascii) (s t : string) : String c s +:+ t = String c (s +:+ t).
Proof. reflexivity. Qed.

Lemma app_empty (t : string) : "" +:+ t = t.
Proof. reflexivity. Qed.

Lemma prefix_cons (a b : ascii) (s t : string) :
  String.prefix (String a s) (String b t)
  = bool_decide (a = b) && String.prefix s t.
Proof.
  simpl. destruct (ascii_dec a b) as [->|Hne].
  - by rewrite bool_decide_eq_true_2.
  - by rewrite bool_decide_eq_false_2.
Qed.

Lemma join_cons (c : string) (ps : list string) :
  join "/" (c :: ps) = c +:+ tail_str ps.
Proof.
  destruct ps as [|p ps]; cbn [join tail_str].
  - induction c; [reflexivity|]. rewrite app_cons. by f_equal.
  - reflexivity.
Qed.

Lemma tail_str_cons (c : string) (ps : list string) :
  tail_str (c :: ps) = String "/" (c +:+ tail_str ps).
Proof. unfold tail_str at 1. by rewrite join_cons. Qed.

Lemma tail_str_starts (ps : list string) :
  tail_str ps = "" /\ ps = []
  \/ exists t, tail_str ps = String "/" t /\ ps <> [].
Proof.
  destruct ps as [|c ps]; [by left|right].
  rewrite tail_str_cons. by eexists.
Qed.

(** [d/] against a component followed by the rest of a path string. *)
Lemma prefix_component (d c : string) (ps : list string) :
  Py.slash_free d = true -> Py.slash_free c = true ->
  String.prefix (d +:+ "/") (c +:+ tail_str ps) = true <-> d = c /\ ps <> [].
Proof.
  revert c; induction d as [|y d IH]; intros [|x c] Hd Hc.
  - rewrite !app_empty.
    destruct (tail_str_starts ps) as [[-> ->]|(t & -> & Hne)].
    + simpl. split; [discriminate|]. by intros [_ ?].
    + rewrite prefix_cons, bool_decide_eq_true_2 by reflexivity. simpl.
      split; [done|]. by destruct t.
  - rewrite app_empty, app_cons, prefix_cons. simpl in Hc.
    apply andb_true_iff in Hc as [Hx _]. apply negb_true_iff in Hx.
    apply bool_decide_eq_false_1 in Hx.
    rewrite bool_decide_eq_false_2 by congruence.
    split; [discriminate|]. by intros [? _].
  - rewrite app_empty, app_cons. simpl in Hd.
    apply andb_true_iff in Hd as [Hy _]. apply negb_true_iff in Hy.
    apply bool_decide_eq_false_1 in Hy.
    destruct (tail_str_starts ps) as [[-> ->]|(t & -> & Hne)].
    + simpl. split; [discriminate|]. by intros [_ ?].
    + rewrite prefix_cons, bool_decide_eq_false_2 by done.
      split; [discriminate|]. by intros [? _].
  - rewrite !app_cons, prefix_cons. simpl in Hd, Hc.
    apply andb_true_iff in Hd as [_ Hd]. apply andb_true_iff in Hc as [_ Hc].
    rewrite andb_true_iff, bool_decide_eq_true, (IH c Hd Hc).
    split; [intros [-> [-> ?]]; done | intros [[= -> ->] ?]; done].
Qed.

(** A search for [/d/] skips a component. *)
Lemma contains_skip_component (d c t : string) :
  Py.slash_free c = true ->
  Py.contains (String "/" (d +:+ "/")) (c +:+ t)
  = Py.contains (String "/" (d +:+ "/")) t.
Proof.
  intros Hc. induction c as [|x c IH]; [reflexivity|].
  simpl in Hc. apply andb_true_iff in Hc as [Hx Hc].
  apply negb_true_iff, bool_decide_eq_false_1 in Hx.
  rewrite app_cons. cbn [Py.contains].
  rewrite prefix_cons, bool_decide_eq_false_2 by congruence.
  cbn [andb orb]. by apply IH.
Qed.

(** [/d/] occurs in the tail of a path string exactly when [d] is one of
    the components before the last. *)
Lemma contains_tail_str (d : string) (ps : list string) :
  Py.slash_free d = true ->
  Forall (fun c => Py.slash_free c = true) ps ->
  Py.contains (String "/" (d +:+ "/")) (tail_str ps) = true
  <-> d ∈ removelast ps.
Proof.
  intros Hd Hps. induction Hps as [|c ps Hc Hps IH].
  - simpl. split; [discriminate|]. by intros ?%elem_of_nil.
  - rewrite tail_str_cons. cbn [Py.contains].
    rewrite prefix_cons, bool_decide_eq_true_2 by reflexivity.
    cbn [andb]. rewrite contains_skip_component by done.
    rewrite orb_true_iff, IH, (prefix_component d c ps Hd Hc).
    destruct ps as [|p ps].
    + simpl. split; [intros [[_ ?]|?%elem_of_nil]; done|by intros ?%elem_of_nil].
    + change (removelast (c :: p :: ps)) with (c :: removelast (p :: ps)).
      rewrite elem_of_cons. split; [intros [[-> _]|?]; auto|].
      intros [->|?]; [left; split; done|by right].
Qed.

Lemma prefix_nonempty_short (d t : string) :
  d <> "" -> Py.slash_free d = true ->
  String.prefix (d +:+ "/") (String "/" t) = false
  /\ String.prefix (d +:+ "/") "." = false.
Proof.
  intros Hne Hd. destruct d as [|y d]; [done|].
  simpl in Hd. apply andb_true_iff in Hd as [Hy _].
  apply negb_true_iff, bool_decide_eq_false_1 in Hy.
  rewrite app_cons, !prefix_cons. split.
  - by rewrite bool_decide_eq_false_2.
  - destruct d; simpl; by rewrite andb_false_r.
Qed.

(** [should_rig] with a list of patterns that are path components: some
    pattern is one of the image's directories, that is, a component of its
    path other than the file name. *)
Lemma should_rig_components (image_path : Path) (dirs : list string) :
  Forall (fun c => Py.slash_free c = true) (parts image_path) ->
  Forall (fun d => d <> "" /\ Py.slash_free d = true) dirs ->
  Pipeline.should_rig image_path (Some dirs) = true
  <-> exists d, d ∈ dirs /\ d ∈ removelast (parts image_path).
Proof.
  intros Hps Hdirs. unfold Pipeline.should_rig.
  rewrite existsb_exists.
  assert (Hone : forall d, d ∈ dirs ->
    Py.contains ("/" +:+ d +:+ "/") (str image_path)
    || Py.startswith (str image_path) (d +:+ "/") = true
    <-> d ∈ removelast (parts image_path)).
  { intros d Hin. rewrite Forall_forall in Hdirs.
    destruct (Hdirs d Hin) as [Hne Hd].
    change ("/" +:+ d +:+ "/") with (String "/" (d +:+ "/")).
    destruct (prefix_nonempty_short d "" Hne Hd) as [_ Hdot].
    unfold Py.startswith, str.
    destruct image_path as [[] [|c ps]]; cbn [anchored parts] in *.
    - (* "/" *)
      change ("/" +:+ join "/" []) with (String "/" "").
      destruct (prefix_nonempty_short d "" Hne Hd) as [-> _].
      cbn [Py.contains]. rewrite prefix_cons.
      destruct d; [done|]. rewrite app_cons. simpl String.prefix.
      rewrite andb_false_r. simpl. split; [discriminate|by intros ?%elem_of_nil].
    - change ("/" +:+ join "/" (c :: ps)) with (tail_str (c :: ps)).
      rewrite tail_str_cons.
      destruct (prefix_nonempty_short d (c +:+ tail_str ps) Hne Hd) as [-> _].
      rewrite orb_false_r, <- tail_str_cons. by apply contains_tail_str.
    - (* "." *)
      rewrite Hdot. simpl. split; [discriminate|by intros ?%elem_of_nil].
    - rewrite join_cons. apply Forall_cons in Hps as [Hc Hps].
      rewrite contains_skip_component by done.
      rewrite orb_true_iff, (contains_tail_str d ps Hd Hps),
        (prefix_component d c ps Hd Hc).
      destruct ps as [|p ps].
      + simpl. split; [intros [?%elem_of_nil|[_ ?]]; done|by intros ?%elem_of_nil].
      + change (removelast (c :: p :: ps)) with (c :: removelast (p :: ps)).
        rewrite elem_of_cons. split; [intros [?|[-> _]]; auto|].
        intros [->|?]; [right; split; done|by left]. }
  split.
  - intros (d & Hin%list_elem_of_In & Hd). exists d. split; [done|].
    by apply Hone.
  - intros (d & Hin & Hd). exists d. split; [by apply list_elem_of_In|].
    by apply Hone.
Qed.

End StringFacts.

(** ** The per-item runner *)

Section RunnerFacts.
Import Discovery Pipeline RunnerSpec.
Context {World : Type} (E : Engines World).

Lemma join_length (s : string) (ps : list string) :
  s ∈ ps -> (String.length s <= String.length (join "/" ps))%nat.
Proof.
  induction ps as [|c ps IH]; [by intros ?%elem_of_nil|].
  rewrite join_cons, string_app_length.
  intros [->|Hin]%elem_of_cons; [lia|].
  specialize (IH Hin). destruct ps as [|p ps]; [by apply elem_of_nil in Hin|].
  unfold tail_str. rewrite string_app_length. lia.
Qed.

(** The string of a path with a non-empty component is not empty. *)
Lemma str_nonempty (p : Path) (s : string) :
  s ∈ parts p -> s <> "" -> str p <> "".
Proof.
  intros Hin Hs Hstr. apply join_length in Hin.
  assert (String.length s <> 0)%nat by (by destruct s).
  unfold str in Hstr. destruct (anchored p), (parts p) as [|c ps];
    try discriminate; rewrite Hstr in Hin; simpl in Hin; lia.
Qed.

Lemma str_joinseg_nonempty (p : Path) (s : string) :
  s <> "" -> s <> "." -> str (p </> s) <> "".
Proof.
  intros H1 H2. rewrite joinseg_segment by done.
  apply (str_nonempty _ s); [|done]. cbn [parts]. set_solver.
Qed.

(** [generate_mesh] returns one of the two candidate files. *)
Lemma generate_mesh_returns (image_path char_output : Path) (res : Z)
    (bake : bool) (dev : string) (w w1 : World) (mesh : Path) :
  generate_mesh E image_path char_output res bake dev w = (w1, Return mesh) ->
  mesh = char_output </> "0" </> "mesh.obj"
  \/ mesh = char_output </> "0" </> "mesh.glb".
Proof.
  unfold generate_mesh.
  destruct (subprocess_run E _ _ w) as [w' [code|e]]; [|discriminate].
  destruct (negb (code =? 0)); [discriminate|].
  destruct (negb (exists_ E (char_output </> "0" </> "mesh.obj") w'));
    destruct (negb (exists_ E _ w')); try discriminate;
    intros [= _ <-]; auto.
Qed.

Lemma generate_mesh_str (image_path char_output : Path) (res : Z)
    (bake : bool) (dev : string) (w w1 : World) (mesh : Path) :
  generate_mesh E image_path char_output res bake dev w = (w1, Return mesh) ->
  str mesh <> "".
Proof.
  intros [-> | ->]%generate_mesh_returns; by apply str_joinseg_nonempty.
Qed.

Lemma app_nonempty (s t : string) : s <> "" -> s +:+ t <> "".
Proof. destruct s; [done|]. by rewrite app_cons. Qed.

(** C10.  Every [CharacterResult] that [process_single] returns: a rigged
    path is reported only together with a mesh path and without an error,
    and a missing mesh path always comes with an error. *)
Theorem C10_result_invariant (image_path : Path) (c : Config) (w w' : World)
    (r : CharacterResult) (tr : list stage) :
  process_single E image_path c w = (w', Return r, tr) ->
  (rigged_path r <> "" -> mesh_path r <> "" /\ error r = "")
  /\ (mesh_path r = "" -> error r <> "").
Proof.
  unfold process_single.
  destruct (relative_output_dir _ _ _) as [co|e]; [|discriminate].
  destruct (generate_mesh E _ co _ _ _ w) as [w1 [mesh|e]] eqn:Hmesh.
  2:{ intros [= <- <- <-]. cbn. split; [done|]. intros _. by apply app_nonempty. }
  apply generate_mesh_str in Hmesh.
  assert (Hfinal : forall w2 tr2,
    match negb (skip_rig c) && should_rig image_path (rig_dirs c), blender_bin c
    return World * result CharacterResult * list stage with
    | true, Some bin =>
        match rig_mesh E mesh
                (co </> (stem image_path +:+ "_rigged." +:+ export_format c))
                bin w2 with
        | (w3, Return _) =>
            (w3,
             Return {| name := stem image_path; image_path := str image_path;
                       mesh_path := str mesh;
                       rigged_path :=
                         str (co </> (stem image_path +:+ "_rigged."
                                      +:+ export_format c));
                       mesh_time := monotonic E w1 - monotonic E w;
                       rig_time := monotonic E w3 - monotonic E w2;
                       error := "" |},
             tr2 ++ [RigStage])
        | (w3, Raise e) =>
            (w3,
             Return {| name := stem image_path; image_path := str image_path;
                       mesh_path := str mesh; rigged_path := "";
                       mesh_time := monotonic E w1 - monotonic E w;
                       rig_time := 0;
                       error := "rigging: " +:+ exn_msg e |},
             tr2 ++ [RigStage])
        end
    | _, _ =>
        (w2,
         Return {| name := stem image_path; image_path := str image_path;
                   mesh_path := str mesh; rigged_path := "";
                   mesh_time := monotonic E w1 - monotonic E w; rig_time := 0;
                   error := "" |},
         tr2)
    end = (w', Return r, tr) ->
    (rigged_path r <> "" -> mesh_path r <> "" /\ error r = "")
    /\ (mesh_path r = "" -> error r <> "")).
  { intros w2 tr2.
    destruct (negb (skip_rig c) && should_rig image_path (rig_dirs c)),
      (blender_bin c) as [bin|];
      try (intros [= <- <- <-]; cbn; by split).
    destruct (rig_mesh E mesh _ bin w2) as [w3 [p|e]];
      intros [= <- <- <-]; cbn; by split. }
  destruct (max_faces c) as [n|].
  - destruct (decimate_mesh E mesh n w1) as [w2 [x|e]].
    + apply Hfinal.
    + intros [= <- <- <-]. cbn. by split.
  - apply Hfinal.
Qed.

(** [process_single] once the mesh and the decimation stage have passed:
    what is left is the gate and the rig stage. *)
Lemma process_single_after_decimation (image_path : Path) (c : Config)
    (w w1 w2 : World) (co mesh : Path) (tr0 : list stage) :
  relative_output_dir image_path (input_root c) (output_dir c) = Return co ->
  generate_mesh E image_path co (mc_resolution c) (bake_texture c) (device c) w
  = (w1, Return mesh) ->
  decimation_passed E c mesh w1 w2 tr0 ->
  process_single E image_path c w
  = let meshed :=
      {| name := stem image_path; image_path := str image_path;
         mesh_path := str mesh; rigged_path := "";
         mesh_time := monotonic E w1 - monotonic E w; rig_time := 0;
         error := "" |} in
    match negb (skip_rig c) && should_rig image_path (rig_dirs c),
          blender_bin c with
    | true, Some bin =>
        let rigged :=
          co </> (stem image_path +:+ "_rigged." +:+ export_format c) in
        match rig_mesh E mesh rigged bin w2 with
        | (w3, Return _) =>
            (w3,
             Return {| name := stem image_path; image_path := str image_path;
                       mesh_path := str mesh; rigged_path := str rigged;
                       mesh_time := monotonic E w1 - monotonic E w;
                       rig_time := monotonic E w3 - monotonic E w2;
                       error := "" |},
             tr0 ++ [RigStage])
        | (w3, Raise e) =>
            (w3,
             Return {| name := stem image_path; image_path := str image_path;
                       mesh_path := str mesh; rigged_path := "";
                       mesh_time := monotonic E w1 - monotonic E w;
                       rig_time := 0;
                       error := "rigging: " +:+ exn_msg e |},
             tr0 ++ [RigStage])
        end
    | _, _ => (w2, Return meshed, tr0)
    end.
Proof.
  intros Hrel Hmesh Hdec. unfold process_single. rewrite Hrel, Hmesh.
  destruct Hdec as [(-> & -> & ->)|(n & x & -> & -> & ->)]; reflexivity.
Qed.

(** C6 (amended).  For an item whose mesh and decimation stages passed, with
    patterns that are path components (non-empty, without separator): the
    rig stage runs if and only if rigging is not disabled, the Blender
    binary was located, and either no pattern list was configured or one of
    the patterns is a directory of the image path, that is, one of its
    components other than the file name.  An item that fails this gate ends
    with an empty rigged path and an empty error, and nothing more is
    called for it. *)
Theorem C6_rig_gate (image_path : Path) (c : Config) (w w1 w2 : World)
    (co mesh : Path) (tr0 : list stage) :
  relative_output_dir image_path (input_root c) (output_dir c) = Return co ->
  generate_mesh E image_path co (mc_resolution c) (bake_texture c) (device c) w
  = (w1, Return mesh) ->
  decimation_passed E c mesh w1 w2 tr0 ->
  Forall (fun s => Py.slash_free s = true) (parts image_path) ->
  (forall dirs, rig_dirs c = Some dirs ->
                Forall (fun d => d <> "" /\ Py.slash_free d = true) dirs) ->
  (RigStage ∈ (process_single E image_path c w).2
   <-> rig_gate directories image_path c)
  /\ (~ rig_gate directories image_path c ->
      exists r, process_single E image_path c w = (w2, Return r, tr0)
                /\ rigged_path r = "" /\ error r = "").
Proof.
  intros Hrel Hmesh Hdec Hparts Hdirs.
  rewrite (process_single_after_decimation _ _ _ _ _ _ _ _ Hrel Hmesh Hdec).
  assert (Htr0 : RigStage ∉ tr0).
  { destruct Hdec as [(_ & _ & ->)|(n & x & _ & _ & ->)];
      rewrite !elem_of_cons, elem_of_nil; intuition discriminate. }
  assert (Hgate : rig_gate directories image_path c
                  <-> negb (skip_rig c) && should_rig image_path (rig_dirs c) = true
                      /\ is_Some (blender_bin c)).
  { unfold rig_gate, directories. rewrite andb_true_iff, negb_true_iff.
    destruct (rig_dirs c) as [dirs|] eqn:Hrd.
    - rewrite (should_rig_components image_path dirs Hparts (Hdirs dirs eq_refl)).
      split.
      + intros (Hs & Hb & [Hn|(dirs' & d & Heq & Hd1 & Hd2)]); [done|].
        injection Heq as <-. eauto.
      + intros ((Hs & d & Hd1 & Hd2) & Hb). eauto 10.
    - simpl. split; [tauto|]. intros ((Hs & _) & Hb). eauto. }
  rewrite Hgate. cbv zeta.
  destruct (negb (skip_rig c) && should_rig image_path (rig_dirs c)),
    (blender_bin c) as [bin|].
  - assert (Hyes : true = true /\ is_Some (Some bin)) by (split; [done|by eexists]).
    destruct (rig_mesh E mesh _ bin w2) as [w3 [p|e]]; cbn [snd];
      (split; [|intros Hn; by destruct Hn]);
      (split; [by intros _|intros _]);
      apply elem_of_app; right; by apply list_elem_of_singleton.
  - cbn [snd]. split.
    + split; [done|]. intros [_ [? ?]]; done.
    + intros _. eexists. by repeat split.
  - cbn [snd]. split.
    + split; [done|]. intros [? _]; done.
    + intros _. eexists. by repeat split.
  - cbn [snd]. split.
    + split; [done|]. intros [? _]; done.
    + intros _. eexists. by repeat split.
Qed.

End RunnerFacts.

Lemma C6_rig_gate_witness :
  let c := Toy.config (Some ["monsters"]) None in
  (Pipeline.RigStage ∈ (Pipeline.process_single (Toy.engines []) Toy.sword_png c 0).2
   <-> RunnerSpec.rig_gate RunnerSpec.directories Toy.sword_png c)
  /\ (~ RunnerSpec.rig_gate RunnerSpec.directories Toy.sword_png c ->
      exists r,
        Pipeline.process_single (Toy.engines []) Toy.sword_png c 0
        = (1, Return r, [Pipeline.MeshStage])
        /\ Pipeline.rigged_path r = "" /\ Pipeline.error r = "").
Proof.
  intros c.
  apply (C6_rig_gate (Toy.engines []) Toy.sword_png c 0 1 1
           (mkPath true ["out"; "items"; "sword"])
           (mkPath true ["out"; "items"; "sword"; "0"; "mesh.obj"])
           [Pipeline.MeshStage]).
  - vm_compute; reflexivity.
  - vm_compute; reflexivity.
  - left. repeat split.
  - repeat constructor.
  - intros dirs Hdirs. injection Hdirs as <-.
    constructor; [split; [discriminate|reflexivity]|constructor].
Defined.

(** The claim as worded fails: a pattern that equals the file name is a
    component of the path, and the item is not rigged. *)
Lemma C6_counterexample : ~ RunnerSpec.rig_runs_iff_pattern_is_component.
Proof.
  intros H.
  pose proof (H Toy.World (Toy.engines []) Toy.bat_png
                (Toy.config (Some ["bat.png"]) None) 0 1 1
                (mkPath true ["out"; "monsters"; "bat"])
                (mkPath true ["out"; "monsters"; "bat"; "0"; "mesh.obj"])
                [Pipeline.MeshStage]) as Hc.
  destruct Hc as [_ Hrun].
  - vm_compute; reflexivity.
  - vm_compute; reflexivity.
  - left. repeat split.
  - assert (Hin : Pipeline.RigStage
                  ∈ (Pipeline.process_single (Toy.engines []) Toy.bat_png
                       (Toy.config (Some ["bat.png"]) None) 0).2).
    { apply Hrun. split; [reflexivity|]. split; [by eexists|].
      right. exists ["bat.png"], "bat.png".
      split; [reflexivity|]. split; [by left|].
      cbn. right. right. by left. }
    vm_compute in Hin. inversion Hin as [|? ? ? Hnil]; inversion Hnil.
Qed.

(** ** Sorting *)

Section SortedFacts.
Context {A : Type} (leb : A -> A -> bool).

Lemma insert_sorted_perm (x : A) (l : list A) :
  Py.insert_sorted leb x l ≡ₚ x :: l.
Proof.
  induction l as [|y l IH]; simpl; [reflexivity|].
  destruct (leb x y); [reflexivity|].
  rewrite IH. apply Permutation_swap.
Qed.

Lemma sorted_perm (l : list A) : Py.sorted leb l ≡ₚ l.
Proof.
  induction l as [|x l IH]; simpl; [reflexivity|].
  unfold Py.sorted in IH. by rewrite insert_sorted_perm, IH.
Qed.

Hypothesis leb_total : forall x y, leb x y = true \/ leb y x = true.
Hypothesis leb_trans :
  forall x y z, leb x y = true -> leb y z = true -> leb x z = true.

Lemma insert_sorted_StronglySorted (x : A) (l : list A) :
  StronglySorted (fun a b => leb a b = true) l ->
  StronglySorted (fun a b => leb a b = true) (Py.insert_sorted leb x l).
Proof.
  induction 1 as [|y l Hl IH Hy]; simpl.
  - repeat constructor.
  - destruct (leb x y) eqn:Hxy.
    + constructor; [by constructor|].
      constructor; [done|].
      eapply Forall_impl; [exact Hy|]. intros z Hz. by eapply leb_trans.
    + constructor; [exact IH|].
      rewrite insert_sorted_perm. constructor; [|done].
      destruct (leb_total x y); congruence.
Qed.

Lemma sorted_StronglySorted (l : list A) :
  StronglySorted (fun a b => leb a b = true) (Py.sorted leb l).
Proof.
  induction l as [|x l IH]; simpl; [constructor|].
  by apply insert_sorted_StronglySorted.
Qed.

Lemma StronglySorted_list_filter (R : A -> A -> Prop) (f : A -> bool) (l : list A) :
  StronglySorted R l -> StronglySorted R (List.filter f l).
Proof.
  induction 1 as [|y l Hl IH Hy]; simpl; [constructor|].
  destruct (f y); [|exact IH].
  constructor; [exact IH|].
  rewrite Forall_forall in *. intros z Hz. apply Hy.
  apply list_elem_of_In. apply list_elem_of_In, filter_In in Hz. tauto.
Qed.

End SortedFacts.

Section PathOrder.

Lemma compare_refl (s : string) : String.compare s s = Eq.
Proof.
  induction s as [|a s IH]; simpl; [reflexivity|].
  unfold Ascii.compare. by rewrite N.compare_refl.
Qed.

Lemma compare_lt_trans (a b c : string) :
  String.compare a b = Lt -> String.compare b c = Lt -> String.compare a c = Lt.
Proof.
  intros Hab Hbc.
  assert (Hle : String.le a c).
  { transitivity b; unfold String.le, String.leb; [by rewrite Hab|by rewrite Hbc]. }
  unfold String.le, String.leb in Hle.
  destruct (String.compare a c) eqn:Hac; [|done|done].
  apply String.compare_eq_iff in Hac as ->.
  rewrite String.compare_antisym, Hab in Hbc. discriminate.
Qed.

Lemma lex_leb_total (l1 l2 : list string) :
  Py.lex_leb l1 l2 = true \/ Py.lex_leb l2 l1 = true.
Proof.
  revert l2; induction l1 as [|a l1 IH]; intros [|b l2]; simpl; auto.
  rewrite (String.compare_antisym a b).
  destruct (String.compare b a); simpl; auto.
Qed.

Lemma lex_leb_trans (l1 l2 l3 : list string) :
  Py.lex_leb l1 l2 = true -> Py.lex_leb l2 l3 = true -> Py.lex_leb l1 l3 = true.
Proof.
  revert l2 l3; induction l1 as [|a l1 IH]; intros [|b l2] [|c l3]; simpl;
    try done.
  destruct (String.compare a b) eqn:Hab; [| |done].
  - apply String.compare_eq_iff in Hab as ->.
    destruct (String.compare b c); [apply IH|done|done].
  - destruct (String.compare b c) eqn:Hbc; [| |done].
    + apply String.compare_eq_iff in Hbc as <-. by rewrite Hab.
    + by rewrite (compare_lt_trans a b c).
Qed.

Lemma path_leb_total (p q : Path) :
  Py.path_leb p q = true \/ Py.path_leb q p = true.
Proof. apply lex_leb_total. Qed.

Lemma path_leb_trans (p q r : Path) :
  Py.path_leb p q = true -> Py.path_leb q r = true -> Py.path_leb p r = true.
Proof. apply lex_leb_trans. Qed.

End PathOrder.

(** ** Discovery *)

Section DiscoveryFacts.
Import Discovery.

Lemma elem_of_rglob (tree : Tree) (root f : Path) :
  f ∈ rglob tree root
  <-> is_dir tree root = true /\ below root f = true /\ is_Some (tree !! f).
Proof.
  unfold rglob. destruct (is_dir tree root).
  - rewrite list_elem_of_In, filter_In, <- list_elem_of_In, list_elem_of_fmap.
    split.
    + intros [([f' k] & -> & Hin%elem_of_map_to_list) Hb]. simpl in *. eauto.
    + intros (_ & Hb & [k Hk]). split; [|done].
      exists (f, k). split; [done|]. by apply elem_of_map_to_list.
  - split; [by intros ?%elem_of_nil|]. by intros [? _].
Qed.

Lemma NoDup_rglob (tree : Tree) (root : Path) : NoDup (rglob tree root).
Proof.
  unfold rglob. destruct (is_dir tree root); [|constructor].
  apply NoDup_ListNoDup, List.NoDup_filter, NoDup_ListNoDup.
  apply NoDup_fst_map_to_list.
Qed.

Lemma elem_of_find_images_dir (tree : Tree) (input_path f : Path) :
  is_file tree input_path = false ->
  f ∈ find_images tree input_path
  <-> is_dir tree input_path = true /\ below input_path f = true
      /\ is_file tree f = true /\ Py.lower (suffix f) ∈ IMAGE_EXTENSIONS.
Proof.
  intros Hfile. unfold find_images. rewrite Hfile.
  rewrite list_elem_of_In, filter_In, <- list_elem_of_In.
  rewrite (sorted_perm Py.path_leb), elem_of_rglob.
  unfold is_image, is_file. rewrite andb_true_iff, !bool_decide_eq_true.
  split; [tauto|]. intros (? & ? & Hf & ?). rewrite Hf. eauto 10.
Qed.

(** Every discovered image lies under the root [main] computes, so that
    [relative_to] succeeds. *)
Lemma find_images_under_root (tree : Tree) (input_path f out : Path) :
  f ∈ find_images tree input_path ->
  exists co,
    relative_output_dir f (input_root_of tree input_path) out = Return co.
Proof.
  unfold input_root_of. destruct (is_file tree input_path) eqn:Hfile.
  - unfold find_images. rewrite Hfile. intros ->%list_elem_of_singleton.
    eauto using relative_output_dir_single.
  - intros (_ & Hb & _)%elem_of_find_images_dir; [|done].
    unfold below in Hb. apply andb_true_iff in Hb as [Ha Hb].
    apply bool_decide_eq_true in Ha.
    unfold relative_output_dir, relative_to.
    rewrite bool_decide_eq_true_2 by done.
    destruct (strip_prefix _ _); [eauto|done].
Qed.

Lemma find_images_missing (tree : Tree) (input_path : Path) :
  path_exists tree input_path = false -> find_images tree input_path = [].
Proof.
  unfold path_exists, find_images, rglob, is_file, is_dir.
  intros Hex%bool_decide_eq_false. apply eq_None_not_Some in Hex.
  rewrite Hex. by rewrite !bool_decide_eq_false_2 by done.
Qed.

Lemma find_images_no_match (tree : Tree) (input_path : Path) :
  is_file tree input_path = false ->
  (forall f, below input_path f = true -> is_image tree f = false) ->
  find_images tree input_path = [].
Proof.
  intros Hfile Hnone. apply elem_of_nil_inv. intros f Hf.
  apply elem_of_find_images_dir in Hf as (_ & Hb & Hf & Hext); [|done].
  specialize (Hnone f Hb). unfold is_image in Hnone.
  rewrite Hf, bool_decide_eq_true_2 in Hnone by done. discriminate.
Qed.

(** Without images [main] exits with status 1 before any stage runs. *)
Lemma main_without_images {World : Type} (E : Pipeline.Engines World)
    (input_path output_dir : Path) (format : string) (resolution : Z)
    (bake_texture skip_rig : bool) (max_faces : option Z)
    (rig_dirs : option (list string)) (workers : Z)
    (blender_bin : option string) (device : string) (completed : list Path)
    (w : World) :
  find_images (Pipeline.tree_of E w) input_path = [] ->
  Pipeline.main E input_path output_dir format resolution bake_texture
    skip_rig max_faces rig_dirs workers blender_bin device completed w
  = (w, Pipeline.SysExit 1).
Proof.
  intros Hnone. unfold Pipeline.main. rewrite Hnone.
  by destruct (negb _).
Qed.

(** C7 (amended).  A single file is discovered as itself.  Otherwise
    [find_images] returns exactly the files below the directory whose
    lower-cased suffix is in [IMAGE_EXTENSIONS], each once, in the order of
    their paths (compared component by component).  For a missing input path
    and for a directory without such a file it returns the empty list, and
    [main] then exits with status 1 before any stage runs. *)
Theorem C7_find_images (tree : Tree) (input_path : Path) :
  (is_file tree input_path = true -> find_images tree input_path = [input_path])
  /\ (is_file tree input_path = false ->
      (forall f, f ∈ find_images tree input_path
                 <-> is_dir tree input_path = true
                     /\ below input_path f = true
                     /\ is_file tree f = true
                     /\ Py.lower (suffix f) ∈ IMAGE_EXTENSIONS)
      /\ StronglySorted (fun p q => Py.path_leb p q = true)
           (find_images tree input_path)
      /\ NoDup (find_images tree input_path))
  /\ (path_exists tree input_path = false ->
      find_images_call tree input_path = Return [])
  /\ (is_file tree input_path = false ->
      (forall f, below input_path f = true -> is_image tree f = false) ->
      find_images_call tree input_path = Return [])
  /\ (forall (World : Type) (E : Pipeline.Engines World)
             (output_dir : Path) (format : string) (resolution : Z)
             (bake_texture skip_rig : bool) (max_faces : option Z)
             (rig_dirs : option (list string)) (workers : Z)
             (blender_bin : option string) (device : string)
             (completed : list Path) (w : World),
        Pipeline.tree_of E w = tree ->
        find_images tree input_path = [] ->
        Pipeline.main E input_path output_dir format resolution bake_texture
          skip_rig max_faces rig_dirs workers blender_bin device completed w
        = (w, Pipeline.SysExit 1)).
Proof.
  split; [|split; [|split; [|split]]].
  - intros Hfile. unfold find_images. by rewrite Hfile.
  - intros Hfile. split; [|split].
    + intros f. by apply elem_of_find_images_dir.
    + unfold find_images. rewrite Hfile.
      apply StronglySorted_list_filter.
      apply sorted_StronglySorted; [apply path_leb_total|apply path_leb_trans].
    + unfold find_images. rewrite Hfile.
      apply NoDup_ListNoDup, List.NoDup_filter, NoDup_ListNoDup.
      rewrite (sorted_perm Py.path_leb). apply NoDup_rglob.
  - intros Hmissing. unfold find_images_call.
    by rewrite find_images_missing.
  - intros Hfile Hnone. unfold find_images_call.
    by rewrite find_images_no_match.
  - intros World E out fmt res bake skip mf rd workers bb dev completed w <- Hnone.
    by apply main_without_images.
Qed.

Lemma C7_find_images_witness :
  find_images Toy.tree0 Toy.bat_png = [Toy.bat_png]
  /\ (Toy.sword_png ∈ find_images Toy.tree0 Toy.in_dir
      /\ StronglySorted (fun p q => Py.path_leb p q = true)
           (find_images Toy.tree0 Toy.in_dir))
  /\ find_images_call Toy.tree0 (mkPath true ["nowhere"]) = Return []
  /\ find_images_call Toy.tree0 (mkPath true ["opt"]) = Return []
  /\ Pipeline.main (Toy.engines []) (mkPath true ["nowhere"]) Toy.out_dir
       "fbx" 256 false false None None 1 None "cpu" [] 0
     = (0, Pipeline.SysExit 1).
Proof.
  destruct (C7_find_images Toy.tree0 Toy.bat_png) as (Hfile & _).
  destruct (C7_find_images Toy.tree0 Toy.in_dir) as (_ & Hdir & _).
  destruct (C7_find_images Toy.tree0 (mkPath true ["nowhere"]))
    as (_ & _ & Hmissing & _ & Hmain).
  destruct (C7_find_images Toy.tree0 (mkPath true ["opt"]))
    as (_ & _ & _ & Hnone & _).
  split; [apply Hfile; vm_compute; reflexivity|].
  split.
  { assert (Hnofile : is_file Toy.tree0 Toy.in_dir = false)
      by (vm_compute; reflexivity).
    destruct (Hdir Hnofile) as (Hin & Hsorted & _).
    split; [|exact Hsorted].
    apply Hin. split; [vm_compute; reflexivity|].
    split; [vm_compute; reflexivity|].
    split; [vm_compute; reflexivity|].
    apply list_elem_of_In. vm_compute. tauto. }
  split; [apply Hmissing; vm_compute; reflexivity|].
  split.
  { apply Hnone; [vm_compute; reflexivity|].
    intros f Hb. unfold is_image, is_file.
    destruct (Toy.tree0 !! f) as [k|] eqn:Hf; [|done].
    apply elem_of_list_to_map_2 in Hf.
    unfold below in Hb. apply andb_true_iff in Hb as [_ Hb].
    repeat (apply elem_of_cons in Hf as [[= -> ->]|Hf];
            [try done; try (by vm_compute in Hb)|]).
    inversion Hf. }
  apply Hmain; [reflexivity|vm_compute; reflexivity].
Defined.

(** The claim as worded fails: on a missing path [find_images] returns. *)
Lemma C7_counterexample : ~ discovery_raises_not_found.
Proof.
  intros H. destruct (H ∅ (mkPath true ["nowhere"])) as [e He].
  - vm_compute; reflexivity.
  - unfold find_images_call in He. discriminate He.
Qed.

End DiscoveryFacts.

Lemma C10_result_invariant_witness :
  let r :=
    {| Pipeline.name := "bat"; Pipeline.image_path := "/in/monsters/bat.png";
       Pipeline.mesh_path := "/out/monsters/bat/0/mesh.obj";
       Pipeline.rigged_path := "/out/monsters/bat/bat_rigged.fbx";
       Pipeline.mesh_time := 1; Pipeline.rig_time := 1;
       Pipeline.error := "" |} in
  (Pipeline.rigged_path r <> ""
   -> Pipeline.mesh_path r <> "" /\ Pipeline.error r = "")
  /\ (Pipeline.mesh_path r = "" -> Pipeline.error r <> "").
Proof.
  intros r.
  apply (C10_result_invariant (Toy.engines []) Toy.bat_png
           (Toy.config None None) 0 2 r
           [Pipeline.MeshStage; Pipeline.RigStage]).
  vm_compute; reflexivity.
Defined.

(** ** The batch *)

Section BatchFacts.
Import Discovery Pipeline RunnerSpec.
Context {World : Type} (E : Engines World).

(** A failing mesh stage ends the item: the error is recorded and neither
    decimation nor rigging is called. *)
Lemma process_single_mesh_fails (image_path : Path) (c : Config)
    (w w1 : World) (co : Path) (e : exn) :
  relative_output_dir image_path (input_root c) (output_dir c) = Return co ->
  generate_mesh E image_path co (mc_resolution c) (bake_texture c) (device c) w
  = (w1, Raise e) ->
  process_single E image_path c w
  = (w1,
     Return {| name := stem image_path; image_path := str image_path;
               mesh_path := ""; rigged_path := ""; mesh_time := 0;
               rig_time := 0;
               error := "mesh generation: " +:+ exn_msg e |},
     [MeshStage]).
Proof. intros Hrel Hmesh. unfold process_single. by rewrite Hrel, Hmesh. Qed.

(** A failing decimation ends the item: rigging is not called. *)
Lemma process_single_decimation_fails (image_path : Path) (c : Config)
    (w w1 w2 : World) (co mesh : Path) (n : Z) (e : exn) :
  relative_output_dir image_path (input_root c) (output_dir c) = Return co ->
  generate_mesh E image_path co (mc_resolution c) (bake_texture c) (device c) w
  = (w1, Return mesh) ->
  max_faces c = Some n ->
  decimate_mesh E mesh n w1 = (w2, Raise e) ->
  process_single E image_path c w
  = (w2,
     Return {| name := stem image_path; image_path := str image_path;
               mesh_path := str mesh; rigged_path := "";
               mesh_time := monotonic E w1 - monotonic E w; rig_time := 0;
               error := "decimation: " +:+ exn_msg e |},
     [MeshStage; DecimateStage]).
Proof.
  intros Hrel Hmesh Hmax Hdec. unfold process_single.
  by rewrite Hrel, Hmesh, Hmax, Hdec.
Qed.

(** A failing rig stage is recorded. *)
Lemma process_single_rig_fails (image_path : Path) (c : Config)
    (w w1 w2 w3 : World) (co mesh : Path) (tr0 : list stage) (bin : string)
    (e : exn) :
  relative_output_dir image_path (input_root c) (output_dir c) = Return co ->
  generate_mesh E image_path co (mc_resolution c) (bake_texture c) (device c) w
  = (w1, Return mesh) ->
  decimation_passed E c mesh w1 w2 tr0 ->
  skip_rig c = false ->
  should_rig image_path (rig_dirs c) = true ->
  blender_bin c = Some bin ->
  rig_mesh E mesh (rigged_target image_path co c) bin w2 = (w3, Raise e) ->
  process_single E image_path c w
  = (w3,
     Return {| name := stem image_path; image_path := str image_path;
               mesh_path := str mesh; rigged_path := "";
               mesh_time := monotonic E w1 - monotonic E w; rig_time := 0;
               error := "rigging: " +:+ exn_msg e |},
     tr0 ++ [RigStage]).
Proof.
  intros Hrel Hmesh Hdec Hskip Hrig Hbin Hfail.
  rewrite (process_single_after_decimation E _ _ _ _ _ _ _ _ Hrel Hmesh Hdec).
  unfold rigged_target in Hfail. cbv zeta.
  by rewrite Hskip, Hrig, Hbin, Hfail.
Qed.

(** Whatever the stages do, [process_single] returns once the output
    directory is computed. *)
Lemma process_single_returns (image_path : Path) (c : Config) (w : World)
    (co : Path) :
  relative_output_dir image_path (input_root c) (output_dir c) = Return co ->
  exists w' r tr, process_single E image_path c w = (w', Return r, tr).
Proof.
  intros Hrel. unfold process_single. rewrite Hrel.
  destruct (generate_mesh E _ co _ _ _ w) as [w1 [mesh|e]]; [|by eauto].
  destruct (max_faces c) as [n|].
  - destruct (decimate_mesh E mesh n w1) as [w2 [x|e]]; [|by eauto].
    destruct (negb _ && _), (blender_bin c) as [bin|]; try by eauto.
    destruct (rig_mesh E mesh _ bin w2) as [w3 [p|e]]; by eauto.
  - destruct (negb _ && _), (blender_bin c) as [bin|]; try by eauto.
    destruct (rig_mesh E mesh _ bin w1) as [w3 [p|e]]; by eauto.
Qed.

(** An item whose stages all pass ends without an error. *)
Lemma process_single_passes (image_path : Path) (c : Config) (w : World)
    (co : Path) :
  relative_output_dir image_path (input_root c) (output_dir c) = Return co ->
  stages_always_pass E c image_path ->
  exists w' r tr,
    process_single E image_path c w = (w', Return r, tr)
    /\ error r = "" /\ mesh_path r <> "".
Proof.
  intros Hrel Hpass.
  destruct (Hpass co Hrel w) as (w1 & mesh & Hmesh & Hdec & Hrig).
  pose proof (generate_mesh_str E _ _ _ _ _ _ _ _ Hmesh) as Hstr.
  assert (exists w2 tr0, decimation_passed E c mesh w1 w2 tr0)
    as (w2 & tr0 & Hpassed).
  { destruct (max_faces c) as [n|] eqn:Hmax.
    - destruct (Hdec n w1) as (w2 & x & Hx).
      exists w2, [MeshStage; DecimateStage]. right. by exists n, x.
    - exists w1, [MeshStage]. by left. }
  rewrite (process_single_after_decimation E _ _ _ _ _ _ _ _ Hrel Hmesh Hpassed).
  cbv zeta.
  destruct (negb _ && _), (blender_bin c) as [bin|]; try by eauto 10.
  destruct (Hrig bin w2 eq_refl) as (w3 & p & Hp).
  unfold rigged_target in Hp. rewrite Hp. by eauto 10.
Qed.

Lemma run_items_isolated (k : Path) (c : Config) (images : list Path) :
  (forall img, img ∈ images ->
     exists co, relative_output_dir img (input_root c) (output_dir c) = Return co) ->
  mesh_always_fails E c k ->
  (forall img, img ∈ images -> img <> k -> stages_always_pass E c img) ->
  forall w, exists w' results,
    run_items E images c w = (w', Return results)
    /\ Forall2 (isolates k) images results.
Proof.
  intros Hunder Hfail Hpass.
  induction images as [|img images IH]; intros w.
  - exists w, []. by split.
  - destruct (Hunder img) as [co Hco]; [by left|].
    assert (exists w1 r tr, process_single E img c w = (w1, Return r, tr)
                            /\ isolates k img r) as (w1 & r & tr & Hrun & Hr).
    { destruct (decide (img = k)) as [->|Hne].
      - destruct (Hfail co w) as (w1 & e & Hmesh).
        rewrite (process_single_mesh_fails _ _ _ _ _ _ Hco Hmesh).
        do 3 eexists. split; [reflexivity|]. split; [|done].
        intros _. cbn. by apply app_nonempty.
      - destruct (process_single_passes img c w co Hco)
          as (w1 & r & tr & Hrun & Herr & Hmp).
        { apply Hpass; [by left|done]. }
        exists w1, r, tr. split; [done|]. by split. }
    destruct IH with (w := w1) as (w' & results & Hrest & Hall).
    { intros i Hi. apply Hunder. by right. }
    { intros i Hi. apply Hpass. by right. }
    exists w', (r :: results). cbn [run_items]. rewrite Hrun, Hrest.
    split; [reflexivity|]. by constructor.
Qed.

Lemma with_error_count (k : Path) (images : list Path)
    (results : list CharacterResult) :
  Forall2 (isolates k) images results ->
  length (with_error results) = length (filter (fun i => i = k) images).
Proof.
  unfold with_error. induction 1 as [|img r images results [Hk Hok] _ IH].
  - reflexivity.
  - rewrite (filter_cons (fun r => error r <> "")),
      (filter_cons (fun i => i = k)).
    destruct (decide (img = k)) as [Heq|Hne].
    + destruct (decide (error r <> "")) as [_|Hno]; [|by destruct Hno; auto].
      simpl. by f_equal.
    + destruct (Hok Hne) as [Herr _].
      destruct (decide (error r <> "")) as [Hyes|_]; [by destruct Hyes|done].
Qed.

Lemma filter_eq_NoDup (k : Path) (images : list Path) :
  NoDup images -> k ∈ images ->
  length (filter (fun i => i = k) images) = 1%nat.
Proof.
  induction 1 as [|img images Hnot Hnd IH]; [by intros ?%elem_of_nil|].
  rewrite filter_cons. intros [->|Hin]%elem_of_cons.
  - rewrite decide_True by done. simpl. f_equal.
    apply length_zero_iff_nil, elem_of_nil_inv. intros x Hx.
    apply list_elem_of_filter in Hx as [-> Hx]. done.
  - rewrite decide_False; [by apply IH|]. by intros ->.
Qed.

Lemma NoDup_find_images (tree : Tree) (input_path : Path) :
  NoDup (find_images tree input_path).
Proof.
  unfold find_images. destruct (is_file tree input_path).
  - apply NoDup_singleton.
  - apply NoDup_ListNoDup, List.NoDup_filter, NoDup_ListNoDup.
    rewrite (sorted_perm Py.path_leb). apply NoDup_rglob.
Qed.

(** The batch of [main] with one image whose mesh stage always fails. *)
Lemma main_isolates_failure (input_path output_dir : Path) (format : string)
    (resolution : Z) (bake_texture skip_rig : bool) (max_faces : option Z)
    (rig_dirs : option (list string)) (workers : Z)
    (blender_bin : option string) (device : string) (completed : list Path)
    (w : World) (k : Path) :
  exists_ E (TRIPOSR_DIR E) w = true ->
  let images := find_images (tree_of E w) input_path in
  let c := call_arguments (input_root_of (tree_of E w) input_path) output_dir
             blender_bin format resolution bake_texture skip_rig device
             rig_dirs max_faces in
  completed ≡ₚ images ->
  k ∈ images ->
  mesh_always_fails E c k ->
  (forall img, img ∈ images -> img <> k -> stages_always_pass E c img) ->
  exists w' summary path total_time results,
    main E input_path output_dir format resolution bake_texture skip_rig
      max_faces rig_dirs workers blender_bin device completed w
    = (w', Finished summary path (build_manifest total_time results))
    /\ length results = length images
    /\ length (with_error results) = 1%nat
    /\ (forall r, r ∈ results -> error r = "" -> mesh_path r <> "").
Proof.
  intros Htripo images c Hperm Hk Hfail Hpass.
  assert (Hconclude : forall l, l ≡ₚ images ->
    forall w0, exists w' results,
      run_items E l c w0 = (w', Return results)
      /\ length results = length images
      /\ length (with_error results) = 1%nat
      /\ (forall r, r ∈ results -> error r = "" -> mesh_path r <> "")).
  { intros l Hl w0.
    destruct (run_items_isolated k c l) with (w := w0)
      as (w' & results & Hrun & Hall); [| done | |].
    - intros img Himg. rewrite Hl in Himg.
      by apply find_images_under_root.
    - intros img Himg. rewrite Hl in Himg. by apply Hpass.
    - exists w', results. split; [done|]. split; [|split].
      + apply Forall2_length in Hall. by rewrite <- Hall, Hl.
      + rewrite (with_error_count k l results Hall).
        apply filter_eq_NoDup; rewrite Hl; [apply NoDup_find_images|done].
      + intros r Hr Herr.
        apply list_elem_of_lookup in Hr as [i Hi].
        destruct (Forall2_lookup_r _ _ _ _ _ Hall Hi) as (img & _ & [Hbad Hgood]).
        destruct (decide (img = k)) as [Heq|Hne]; [by destruct (Hbad Heq)|].
        by destruct (Hgood Hne). }
  unfold main. rewrite Htripo. cbn [negb]. fold images.
  destruct images as [|i0 rest] eqn:Himages; [by apply elem_of_nil in Hk|].
  rewrite <- Himages in *. fold c. unfold collect_results.
  destruct (1 <? workers).
  - destruct (Hconclude completed Hperm w) as (w' & results & -> & ?).
    by do 5 eexists.
  - destruct (Hconclude images (reflexivity _) w) as (w' & results & Hrun & ?).
    subst images. rewrite Hrun. by do 5 eexists.
Qed.

(** C3.  For every discovered image [process_single] returns a
    [CharacterResult] and raises nothing.  A stage that fails leaves its
    message in the [error] field and is the last stage called for the item.
    So in a batch where the mesh stage of exactly one image fails every
    time and all stages of the others pass, [main] writes a report with one
    outcome per image, exactly one of them with an error. *)
Theorem C3_failures_stay_in_the_item :
  (forall (tree : Tree) (input_path image_path : Path) (c : Config) (w : World),
     image_path ∈ find_images tree input_path ->
     input_root c = input_root_of tree input_path ->
     exists w' r tr, process_single E image_path c w = (w', Return r, tr))
  /\ (forall (image_path : Path) (c : Config) (w w1 : World) (co : Path) (e : exn),
        relative_output_dir image_path (input_root c) (output_dir c) = Return co ->
        generate_mesh E image_path co (mc_resolution c) (bake_texture c)
          (device c) w = (w1, Raise e) ->
        exists r, process_single E image_path c w = (w1, Return r, [MeshStage])
                  /\ error r = "mesh generation: " +:+ exn_msg e
                  /\ mesh_path r = "" /\ rigged_path r = "")
  /\ (forall (image_path : Path) (c : Config) (w w1 w2 : World)
             (co mesh : Path) (n : Z) (e : exn),
        relative_output_dir image_path (input_root c) (output_dir c) = Return co ->
        generate_mesh E image_path co (mc_resolution c) (bake_texture c)
          (device c) w = (w1, Return mesh) ->
        max_faces c = Some n ->
        decimate_mesh E mesh n w1 = (w2, Raise e) ->
        exists r, process_single E image_path c w
                  = (w2, Return r, [MeshStage; DecimateStage])
                  /\ error r = "decimation: " +:+ exn_msg e
                  /\ rigged_path r = "")
  /\ (forall (image_path : Path) (c : Config) (w w1 w2 w3 : World)
             (co mesh : Path) (tr0 : list stage) (bin : string) (e : exn),
        relative_output_dir image_path (input_root c) (output_dir c) = Return co ->
        generate_mesh E image_path co (mc_resolution c) (bake_texture c)
          (device c) w = (w1, Return mesh) ->
        decimation_passed E c mesh w1 w2 tr0 ->
        skip_rig c = false ->
        should_rig image_path (rig_dirs c) = true ->
        blender_bin c = Some bin ->
        rig_mesh E mesh (rigged_target image_path co c) bin w2 = (w3, Raise e) ->
        exists r, process_single E image_path c w
                  = (w3, Return r, tr0 ++ [RigStage])
                  /\ error r = "rigging: " +:+ exn_msg e
                  /\ rigged_path r = "")
  /\ (forall (input_path output_dir : Path) (format : string) (resolution : Z)
             (bake_texture skip_rig : bool) (max_faces : option Z)
             (rig_dirs : option (list string)) (workers : Z)
             (blender_bin : option string) (device : string)
             (completed : list Path) (w : World) (k : Path),
        exists_ E (TRIPOSR_DIR E) w = true ->
        let images := find_images (tree_of E w) input_path in
        let c := call_arguments (input_root_of (tree_of E w) input_path)
                   output_dir blender_bin format resolution bake_texture
                   skip_rig device rig_dirs max_faces in
        completed ≡ₚ images ->
        k ∈ images ->
        mesh_always_fails E c k ->
        (forall img, img ∈ images -> img <> k -> stages_always_pass E c img) ->
        exists w' summary path total_time results,
          main E input_path output_dir format resolution bake_texture skip_rig
            max_faces rig_dirs workers blender_bin device completed w
          = (w', Finished summary path (build_manifest total_time results))
          /\ length results = length images
          /\ length (with_error results) = 1%nat
          /\ (forall r, r ∈ results -> error r = "" -> mesh_path r <> "")).
Proof.
  split; [|split; [|split; [|split]]].
  - intros tree input_path image_path c w Hin Hroot.
    destruct (find_images_under_root tree input_path image_path (output_dir c) Hin)
      as [co Hco].
    rewrite <- Hroot in Hco. by eapply process_single_returns.
  - intros image_path c w w1 co e Hrel Hmesh.
    rewrite (process_single_mesh_fails _ _ _ _ _ _ Hrel Hmesh).
    eexists. by repeat split.
  - intros image_path c w w1 w2 co mesh n e Hrel Hmesh Hmax Hdec.
    rewrite (process_single_decimation_fails _ _ _ _ _ _ _ _ _ Hrel Hmesh Hmax Hdec).
    eexists. by repeat split.
  - intros image_path c w w1 w2 w3 co mesh tr0 bin e Hrel Hmesh Hdec Hskip Hrig
      Hbin Hfail.
    rewrite (process_single_rig_fails _ _ _ _ _ _ _ _ _ _ _ Hrel Hmesh Hdec Hskip
               Hrig Hbin Hfail).
    eexists. by repeat split.
  - intros input_path output_dir format resolution bake skip mf rd workers bb
      dev completed w k Htripo images c Hperm Hk Hfail Hpass.
    exact (main_isolates_failure input_path output_dir format resolution bake
             skip mf rd workers bb dev completed w k Htripo Hperm Hk Hfail Hpass).
Qed.

End BatchFacts.

Section ToyBatch.
Import Discovery Pipeline RunnerSpec.

Lemma toy_images : find_images Toy.tree0 Toy.in_dir = [Toy.sword_png; Toy.bat_png].
Proof. vm_compute; reflexivity. Qed.

Lemma toy_bat_mesh_fails : mesh_always_fails Toy.bat_fails Toy.batch_config Toy.bat_png.
Proof. intros co w. eexists _, _. vm_compute. reflexivity. Qed.

Lemma toy_sword_passes : stages_always_pass Toy.bat_fails Toy.batch_config Toy.sword_png.
Proof.
  intros co Hrel w. vm_compute in Hrel. injection Hrel as <-.
  eexists _, _. split; [vm_compute; reflexivity|]. split.
  - intros n w'. unfold decimate_mesh. cbn.
    destruct (Z.of_nat 2 <=? n); eexists _, _; reflexivity.
  - intros bin w' Hbin. injection Hbin as <-.
    eexists _, _. vm_compute. reflexivity.
Qed.

End ToyBatch.

Lemma C3_failures_stay_in_the_item_witness :
  (exists w' r tr,
     Pipeline.process_single Toy.bat_fails Toy.bat_png Toy.batch_config 0
     = (w', Return r, tr))
  /\ (exists w' summary path total_time results,
        Pipeline.main Toy.bat_fails Toy.in_dir Toy.out_dir "fbx" 256 false false
          None None 2 (Some "/usr/bin/blender") "cpu"
          [Toy.bat_png; Toy.sword_png] 0
        = (w', Pipeline.Finished summary path
                 (Pipeline.build_manifest total_time results))
        /\ length results = length (Discovery.find_images Toy.tree0 Toy.in_dir)
        /\ length (RunnerSpec.with_error results) = 1%nat
        /\ (forall r, r ∈ results -> Pipeline.error r = ""
                      -> Pipeline.mesh_path r <> "")).
Proof.
  destruct (C3_failures_stay_in_the_item Toy.bat_fails) as (Ha & _ & _ & _ & Hc).
  split.
  - apply (Ha Toy.tree0 Toy.in_dir Toy.bat_png Toy.batch_config 0).
    + rewrite toy_images. right. left.
    + reflexivity.
  - apply (Hc Toy.in_dir Toy.out_dir "fbx" 256 false false None None 2
             (Some "/usr/bin/blender") "cpu" [Toy.bat_png; Toy.sword_png] 0
             Toy.bat_png).
    + vm_compute; reflexivity.
    + change (Pipeline.tree_of Toy.bat_fails 0) with Toy.tree0.
      rewrite toy_images. apply Permutation_swap.
    + change (Pipeline.tree_of Toy.bat_fails 0) with Toy.tree0.
      rewrite toy_images. right. left.
    + exact toy_bat_mesh_fails.
    + change (Pipeline.tree_of Toy.bat_fails 0) with Toy.tree0.
      rewrite toy_images. intros img Himg Hne.
      apply elem_of_cons in Himg as [->|Himg]; [exact toy_sword_passes|].
      apply list_elem_of_singleton in Himg. done.
Defined.

(** ** The manifest *)

Section ManifestFacts.
Import Discovery Pipeline.

(** The manifest lists the outcomes in the order of [results]. *)
Lemma persisted_names_build_manifest (total_time : Z)
    (results : list CharacterResult) :
  persisted_names (build_manifest total_time results) = name <$> results.
Proof.
  unfold persisted_names, build_manifest, json_field. cbn [List.find fst snd].
  rewrite bool_decide_eq_false_2 by discriminate.
  rewrite bool_decide_eq_true_2 by reflexivity. cbn [fmap option_fmap option_map snd].
  induction results as [|r results IH]; [reflexivity|].
  cbn [fmap list_fmap omap list_omap manifest_entry List.find fst snd] in *.
  rewrite bool_decide_eq_true_2 by reflexivity.
  cbn [fmap option_fmap option_map snd]. by f_equal.
Qed.

(** C2, on two images.  With one worker the manifest lists the outcomes in
    discovery order, with two workers in completion order; neither is the
    order of the names, and two completion orders give two different
    manifests.  Only the printed summary is sorted by name. *)
Theorem C2_manifest_keeps_completion_order :
  let run workers completed :=
    (main (Toy.engines []) Toy.in_dir Toy.out_dir "fbx" 256 false false None
       None workers (Some "/usr/bin/blender") "cpu" completed 0).2 in
  (exists summary path manifest,
     run 1 [] = Finished summary path manifest
     /\ persisted_names manifest = ["sword"; "bat"]
     /\ name <$> summary = ["bat"; "sword"])
  /\ (exists summary path manifest,
        run 2 [Toy.sword_png; Toy.bat_png] = Finished summary path manifest
        /\ persisted_names manifest = ["sword"; "bat"]
        /\ name <$> summary = ["bat"; "sword"])
  /\ (exists summary path manifest,
        run 2 [Toy.bat_png; Toy.sword_png] = Finished summary path manifest
        /\ persisted_names manifest = ["bat"; "sword"]
        /\ name <$> summary = ["bat"; "sword"]).
Proof.
  intros run. subst run. cbv beta.
  split; [|split]; do 3 eexists; (split; [vm_compute; reflexivity|]);
    split; vm_compute; reflexivity.
Qed.

End ManifestFacts.

(** ** More about output directories *)

Section OutputDirDomain.
Import Discovery Pipeline.

Lemma strip_prefix_spec (pre l rest : list string) :
  strip_prefix pre l = Some rest <-> l = pre ++ rest.
Proof.
  revert l. induction pre as [|a pre IH]; intros l; simpl.
  - split; [by intros [= ->]|by intros ->].
  - destruct l as [|b l]; [split; discriminate|].
    destruct (decide (a = b)) as [->|Hne].
    + rewrite IH. split; [by intros ->|by intros [= ->]].
    + split; [discriminate|]. intros [= ? ?]. done.
Qed.

Lemma relative_to_under (image_path root : Path) :
  (exists rel, relative_to image_path root = Return rel) <-> under root image_path.
Proof.
  unfold relative_to, under. case_bool_decide as Ha.
  - destruct (strip_prefix (parts root) (parts image_path)) as [rest|] eqn:Hs.
    + apply strip_prefix_spec in Hs. split; [|by eauto].
      intros _. split; [done|]. by exists rest.
    + split; [by intros [? ?]|]. intros [_ [rest Hrest]].
      apply strip_prefix_spec in Hrest. congruence.
  - split; [by intros [? ?]|]. by intros [? _].
Qed.

Lemma relative_output_dir_under (image_path root out : Path) :
  (exists co, relative_output_dir image_path root out = Return co)
  <-> under root image_path.
Proof.
  rewrite <- relative_to_under. unfold relative_output_dir.
  destruct (relative_to image_path root); split; intros [? ?]; by eauto.
Qed.

Lemma relative_output_dir_error (image_path root out : Path) (e : exn) :
  relative_output_dir image_path root out = Raise e -> exn_type e = ValueError.
Proof.
  unfold relative_output_dir, relative_to.
  case_bool_decide; [destruct (strip_prefix _ _)|]; by intros [= <-].
Qed.

(** X8.  [relative_output_dir] returns exactly for an image that is the
    input root or lies below it (same anchor, the root's components a
    prefix of the image's); for any other image it raises [ValueError]. *)
Theorem X8_relative_output_dir_domain (image_path root out : Path) :
  ((exists co, relative_output_dir image_path root out = Return co)
   <-> under root image_path)
  /\ ((exists e, relative_output_dir image_path root out = Raise e)
      <-> ~ under root image_path)
  /\ (forall e, relative_output_dir image_path root out = Raise e ->
                exn_type e = ValueError).
Proof.
  split; [apply relative_output_dir_under|].
  split; [|intros e; apply relative_output_dir_error].
  rewrite <- (relative_output_dir_under image_path root out).
  destruct (relative_output_dir image_path root out) as [co|e].
  - split; [by intros [? ?]|]. intros H. destruct H. by eauto.
  - split; [|by eauto]. intros _ [? ?]. done.
Qed.



End OutputDirDomain.

(** ** More about the runner and the batch *)

Section RunnerShape.
Import Discovery Pipeline RunnerSpec.
Context {World : Type} (E : Engines World).

(** Everything a returned outcome says about the run that produced it. *)
Lemma process_single_shape (image_path : Path) (c : Config) (w w' : World)
    (r : CharacterResult) (tr : list stage) :
  process_single E image_path c w = (w', Return r, tr) ->
  name r = stem image_path
  /\ Pipeline.image_path r = str image_path
  /\ exists d rg,
       tr = MeshStage :: d ++ rg
       /\ (d = [] \/ d = [DecimateStage] /\ is_Some (max_faces c))
       /\ (rg = [] /\ rigged_path r = ""
           \/ rg = [RigStage] /\ skip_rig c = false
              /\ is_Some (blender_bin c)
              /\ should_rig image_path (rig_dirs c) = true).
Proof.
  intros Hrun.
  destruct (relative_output_dir image_path (input_root c) (output_dir c))
    as [co|e] eqn:Hrel.
  2:{ unfold process_single in Hrun. rewrite Hrel in Hrun. discriminate. }
  destruct (generate_mesh E image_path co (mc_resolution c) (bake_texture c)
              (device c) w) as [w1 [mesh|e]] eqn:Hmesh.
  2:{ rewrite (process_single_mesh_fails E _ _ _ _ _ _ Hrel Hmesh) in Hrun.
      injection Hrun as <- <- <-. cbn. repeat split.
      exists [], []. split; [done|]. split; [by left|]. by left. }
  assert (Hafter : forall w2 d,
    decimation_passed E c mesh w1 w2 (MeshStage :: d) ->
    (d = [] \/ d = [DecimateStage] /\ is_Some (max_faces c)) ->
    name r = stem image_path
    /\ Pipeline.image_path r = str image_path
    /\ exists d rg,
         tr = MeshStage :: d ++ rg
         /\ (d = [] \/ d = [DecimateStage] /\ is_Some (max_faces c))
         /\ (rg = [] /\ rigged_path r = ""
             \/ rg = [RigStage] /\ skip_rig c = false
                /\ is_Some (blender_bin c)
                /\ should_rig image_path (rig_dirs c) = true)).
  { intros w2 d Hdec Hd.
    rewrite (process_single_after_decimation E _ _ _ _ _ _ _ _ Hrel Hmesh Hdec)
      in Hrun. cbv zeta in Hrun.
    destruct (skip_rig c) eqn:Hskip; cbn [negb andb] in Hrun.
    { destruct (blender_bin c); injection Hrun as <- <- <-; cbn;
        repeat split; exists d, []; rewrite app_nil_r; by auto. }
    destruct (should_rig image_path (rig_dirs c)) eqn:Hrig.
    2:{ destruct (blender_bin c); injection Hrun as <- <- <-; cbn;
          repeat split; exists d, []; rewrite app_nil_r; by auto. }
    destruct (blender_bin c) as [bin|] eqn:Hbin.
    2:{ injection Hrun as <- <- <-; cbn.
        repeat split; exists d, []; rewrite app_nil_r; by auto. }
    destruct (rig_mesh E mesh _ bin w2) as [w3 [p|e]];
      injection Hrun as <- <- <-; cbn; repeat split;
      exists d, [RigStage]; (split; [done|]); (split; [done|]); right;
      by repeat split. }
  destruct (max_faces c) as [n|] eqn:Hmax.
  - destruct (decimate_mesh E mesh n w1) as [w2 [x|e]] eqn:Hdec.
    + apply (Hafter w2 [DecimateStage]); [|right; by split].
      right. exists n, x. by repeat split.
    + rewrite (process_single_decimation_fails E _ _ _ _ _ _ _ _ _ Hrel Hmesh
                 Hmax Hdec) in Hrun.
      injection Hrun as <- <- <-. cbn. repeat split.
      exists [DecimateStage], []. split; [done|].
      split; [right; by split|]. by left.
  - apply (Hafter w1 []); [|by left]. left. by repeat split.
Qed.

(** X10.  [process_single] raises exactly when the image is not under the
    input root; the exception is the [ValueError] of [relative_to], no stage
    has been called and the world is as before. *)
Theorem X10_process_single_raises_only_outside_root (image_path : Path)
    (c : Config) (w : World) :
  ((exists e, (process_single E image_path c w).1.2 = Raise e)
   <-> ~ under (input_root c) image_path)
  /\ (forall e, (process_single E image_path c w).1.2 = Raise e ->
                exn_type e = ValueError
                /\ process_single E image_path c w = (w, Raise e, [])).
Proof.
  destruct (relative_output_dir image_path (input_root c) (output_dir c))
    as [co|e0] eqn:Hrel.
  - destruct (process_single_returns E image_path c w co Hrel)
      as (w' & r & tr & Hrun).
    rewrite Hrun. cbn. split; [|discriminate].
    split; [by intros [? ?]|]. intros Hout. destruct Hout.
    apply (relative_output_dir_under image_path (input_root c) (output_dir c)).
    by eauto.
  - assert (Hrun : process_single E image_path c w = (w, Raise e0, []))
      by (unfold process_single; by rewrite Hrel).
    rewrite Hrun. cbn. split.
    + split; [|by eauto]. intros _ Hunder.
      apply (relative_output_dir_under image_path (input_root c) (output_dir c))
        in Hunder as [co Hco]. congruence.
    + intros e [= <-]. split; [|done].
      by eapply relative_output_dir_error.
Qed.

(** X11.  The stages of a returned run are called in one order: the mesh
    stage first, then decimation at most once and only when a face ceiling
    is configured, then rigging at most once and only when rigging is not
    skipped, Blender was located and [should_rig] holds.  Without a call of
    the rig stage the rigged path is empty. *)
Theorem X11_stage_order (image_path : Path) (c : Config) (w w' : World)
    (r : CharacterResult) (tr : list stage) :
  process_single E image_path c w = (w', Return r, tr) ->
  exists d rg,
    tr = MeshStage :: d ++ rg
    /\ (d = [] \/ d = [DecimateStage] /\ is_Some (max_faces c))
    /\ (rg = [] /\ rigged_path r = ""
        \/ rg = [RigStage] /\ skip_rig c = false
           /\ is_Some (blender_bin c)
           /\ should_rig image_path (rig_dirs c) = true).
Proof. intros Hrun. by apply process_single_shape in Hrun as (_ & _ & ?). Qed.

Lemma run_items_identity (images : list Path) (c : Config) (w w' : World)
    (results : list CharacterResult) :
  run_items E images c w = (w', Return results) ->
  Pipeline.image_path <$> results = str <$> images
  /\ name <$> results = stem <$> images.
Proof.
  revert w results. induction images as [|img images IH]; intros w results.
  - cbn. by intros [= <- <-].
  - cbn [run_items].
    destruct (process_single E img c w) as [[w1 [r|e]] tr] eqn:Hrun;
      [|discriminate].
    destruct (run_items E images c w1) as [w2 [rs|e]] eqn:Hrest;
      [|discriminate].
    intros [= <- <-]. destruct (IH _ _ Hrest) as [Hi Hn].
    apply process_single_shape in Hrun as (Hname & Himage & _).
    cbn. by rewrite Hi, Hn, Hname, Himage.
Qed.

(** X12.  The outcomes [run_items] returns stand for the images it was
    given, one each and in the same order: the i-th outcome carries the
    i-th image's path and stem, whether its stages failed or not. *)
Theorem X12_outcomes_follow_images (images : list Path) (c : Config)
    (w w' : World) (results : list CharacterResult) :
  run_items E images c w = (w', Return results) ->
  Pipeline.image_path <$> results = str <$> images
  /\ name <$> results = stem <$> images
  /\ length results = length images.
Proof.
  intros Hrun. destruct (run_items_identity _ _ _ _ _ Hrun) as [Hi Hn].
  repeat split; [done..|].
  apply (f_equal length) in Hi. by rewrite !length_fmap in Hi.
Qed.

Lemma run_items_returns (images : list Path) (c : Config) (w : World) :
  (forall img, img ∈ images -> under (input_root c) img) ->
  exists w' results, run_items E images c w = (w', Return results).
Proof.
  revert w. induction images as [|img images IH]; intros w Hunder.
  - by exists w, [].
  - destruct (relative_output_dir_under img (input_root c) (output_dir c))
      as [_ Hco].
    destruct Hco as [co Hco]; [apply Hunder; by left|].
    destruct (process_single_returns E img c w co Hco) as (w1 & r & tr & Hrun).
    destruct (IH w1) as (w' & rs & Hrest).
    { intros i Hi. apply Hunder. by right. }
    exists w', (r :: rs). cbn [run_items]. by rewrite Hrun, Hrest.
Qed.

(** X13.  Once the TripoSR directory exists and discovery found an image,
    [main] always ends by writing the manifest to
    [<output_dir>/manifest.json], whatever the stages did: it holds one
    outcome per processed image, in discovery order with one worker and in
    completion order with more. *)
Theorem X13_main_always_writes_manifest (input_path output_dir : Path)
    (format : string) (resolution : Z) (bake_texture skip_rig : bool)
    (max_faces : option Z) (rig_dirs : option (list string)) (workers : Z)
    (blender_bin : option string) (device : string) (completed : list Path)
    (w : World) :
  exists_ E (TRIPOSR_DIR E) w = true ->
  find_images (tree_of E w) input_path <> [] ->
  (forall img, img ∈ completed -> img ∈ find_images (tree_of E w) input_path) ->
  exists w' results total_time,
    main E input_path output_dir format resolution bake_texture skip_rig
      max_faces rig_dirs workers blender_bin device completed w
    = (w', Finished (summary_order results) (output_dir </> "manifest.json")
             (build_manifest total_time results))
    /\ Pipeline.image_path <$> results
       = str <$> (if 1 <? workers then completed
                  else find_images (tree_of E w) input_path).
Proof.
  intros Htripo Himages Hcompleted.
  set (c := call_arguments (input_root_of (tree_of E w) input_path) output_dir
              blender_bin format resolution bake_texture skip_rig device
              rig_dirs max_faces).
  assert (Hunder : forall img, img ∈ find_images (tree_of E w) input_path ->
                               under (input_root c) img).
  { intros img Himg.
    apply (relative_output_dir_under img (input_root c) output_dir).
    by apply find_images_under_root. }
  unfold main. rewrite Htripo. cbn [negb].
  destruct (find_images (tree_of E w) input_path) as [|i0 rest] eqn:Hfound;
    [done|].
  fold c. unfold collect_results. destruct (1 <? workers).
  - destruct (run_items_returns completed c w) as (w' & results & Hrun).
    { intros img Himg. by apply Hunder, Hcompleted. }
    rewrite Hrun. exists w', results. eexists. split; [reflexivity|].
    by apply run_items_identity in Hrun as [? _].
  - destruct (run_items_returns (i0 :: rest) c w) as (w' & results & Hrun);
      [done|].
    rewrite Hrun. exists w', results. eexists. split; [reflexivity|].
    by apply run_items_identity in Hrun as [? _].
Qed.

End RunnerShape.

(** ** The stage adapters *)

Section StageFacts.
Import Discovery Pipeline.
Context {World : Type} (E : Engines World).

(** X14.  A mesh path that [generate_mesh] returns exists in the world the
    engine left behind, and it is [<char_output>/0/mesh.obj] whenever that
    file exists: [mesh.glb] is returned only in its absence. *)
Theorem X14_generate_mesh_returns_existing_file (image_path char_output : Path)
    (resolution : Z) (bake : bool) (dev : string) (w w1 : World) (mesh : Path) :
  generate_mesh E image_path char_output resolution bake dev w
  = (w1, Return mesh) ->
  exists_ E mesh w1 = true
  /\ (mesh = char_output </> "0" </> "mesh.obj"
      \/ mesh = char_output </> "0" </> "mesh.glb"
         /\ exists_ E (char_output </> "0" </> "mesh.obj") w1 = false).
Proof.
  unfold generate_mesh.
  destruct (subprocess_run E _ _ w) as [w' [code|e]]; [|discriminate].
  destruct (negb (code =? 0)); [discriminate|].
  destruct (exists_ E (char_output </> "0" </> "mesh.obj") w') eqn:Hobj;
    cbn [negb].
  - rewrite Hobj. cbn [negb]. intros [= <- <-]. by auto.
  - destruct (exists_ E (char_output </> "0" </> "mesh.glb") w') eqn:Hglb;
      cbn [negb]; [|discriminate].
    intros [= <- <-]. by auto.
Qed.

(** X15.  [rig_mesh] returns exactly when Blender exits with status 0 and
    the output file exists afterwards, and then it returns the output path
    it was given; a zero exit without the file is an error. *)
Theorem X15_rig_mesh_returns_iff (mesh_path output_path p : Path)
    (blender_bin : string) (w w3 : World) :
  let cmd :=
    [ blender_bin; "--background"; "--python"; str (BLENDER_RIG_SCRIPT E);
      "--"; str mesh_path; str output_path ] in
  rig_mesh E mesh_path output_path blender_bin w = (w3, Return p)
  <-> subprocess_run E cmd None w = (w3, Return 0)
      /\ exists_ E output_path w3 = true
      /\ p = output_path.
Proof.
  intros cmd. unfold rig_mesh. fold cmd.
  destruct (subprocess_run E cmd None w) as [w' [code|e]].
  - destruct (code =? 0) eqn:Hcode; cbn [negb].
    + apply Z.eqb_eq in Hcode as ->.
      destruct (exists_ E output_path w') eqn:Hout; cbn [negb].
      * split; [by intros [= <- <-]|]. by intros ([= <-] & _ & ->).
      * split; [discriminate|]. intros ([= <-] & Hex & _). congruence.
    + apply Z.eqb_neq in Hcode.
      split; [discriminate|]. intros ([= _ ?] & _). done.
  - split; [discriminate|]. intros ([= ] & _).
Qed.

(** X16.  What [decimate_mesh] returns is the path it was given and the
    face count of the loaded mesh, with either that count again and the
    world untouched (mesh within the ceiling) or the count of whatever the
    simplification produced and the world after the export (mesh above the
    ceiling).  When loading or simplifying raises, nothing is exported: the
    world is untouched. *)
Theorem X16_decimate_mesh_outcomes (mesh_path : Path) (max_faces : Z)
    (w : World) :
  (forall w' p original final,
     decimate_mesh E mesh_path max_faces w = (w', Return (p, original, final)) ->
     p = mesh_path
     /\ exists mesh,
          trimesh_load E mesh_path w = Return mesh
          /\ original = length (faces E mesh)
          /\ (Z.of_nat original <= max_faces /\ final = original /\ w' = w
              \/ max_faces < Z.of_nat original
                 /\ exists simplified,
                      simplify_quadric_decimation E mesh max_faces
                      = Return simplified
                      /\ final = length (faces E simplified)
                      /\ export E simplified (str mesh_path) w
                         = (w', Return tt)))
  /\ (forall e, trimesh_load E mesh_path w = Raise e ->
                decimate_mesh E mesh_path max_faces w = (w, Raise e))
  /\ (forall mesh e,
        trimesh_load E mesh_path w = Return mesh ->
        max_faces < Z.of_nat (length (faces E mesh)) ->
        simplify_quadric_decimation E mesh max_faces = Raise e ->
        decimate_mesh E mesh_path max_faces w = (w, Raise e)).
Proof.
  unfold decimate_mesh. split; [|split].
  - intros w' p original final.
    destruct (trimesh_load E mesh_path w) as [mesh|e] eqn:Hload;
      [|discriminate].
    destruct (Z.of_nat (length (faces E mesh)) <=? max_faces) eqn:Hle.
    + intros [= <- <- <- <-]. split; [done|]. exists mesh.
      split; [done|]. split; [done|]. left. repeat split. lia.
    + destruct (simplify_quadric_decimation E mesh max_faces)
        as [simplified|e] eqn:Hsimp; [|discriminate].
      destruct (export E simplified (str mesh_path) w) as [w1 [[]|e]] eqn:Hexp;
        [|discriminate].
      intros [= <- <- <- <-]. split; [done|]. exists mesh.
      split; [done|]. split; [done|]. right. split; [lia|].
      exists simplified. by repeat split.
  - by intros e ->.
  - intros mesh e -> Habove ->.
    by replace (Z.of_nat (length (faces E mesh)) <=? max_faces) with false
      by (symmetry; lia).
Qed.

End StageFacts.

(** ** More about [should_rig], the summary and discovery *)

Section Leftovers.
Import Discovery Pipeline.

(** X17.  An empty pattern in the list (as a trailing comma in
    [--rig-dirs] leaves one) makes [should_rig] accept every absolute
    path: its test [path_str.startswith("/")] always holds. *)
Theorem X17_empty_pattern_matches_all (image_path : Path) (dirs : list string) :
  anchored image_path = true ->
  "" ∈ dirs ->
  should_rig image_path (Some dirs) = true.
Proof.
  intros Ha Hin. unfold should_rig. apply existsb_exists.
  exists "". split; [by apply list_elem_of_In|].
  apply orb_true_iff. right. unfold Py.startswith, str. rewrite Ha.
  rewrite app_empty.
  change ("/" +:+ join "/" (parts image_path))
    with (String "/" (join "/" (parts image_path))).
  rewrite prefix_cons, bool_decide_eq_true_2 by done.
  by destruct (join "/" (parts image_path)).
Qed.

Lemma X17_empty_pattern_matches_all_witness :
  should_rig Toy.sword_png (Some ["monsters"; ""]) = true.
Proof.
  apply (X17_empty_pattern_matches_all Toy.sword_png ["monsters"; ""]).
  - reflexivity.
  - right. left.
Defined.

Lemma name_leb_trans (a b c : string) :
  String.leb a b = true -> String.leb b c = true -> String.leb a c = true.
Proof.
  intros Hab Hbc. apply Is_true_true. apply Is_true_true in Hab, Hbc.
  change (String.le a c). by transitivity b.
Qed.

(** X18.  The order of the printed summary is a rearrangement of the
    outcomes in which the names never decrease. *)
Theorem X18_summary_sorted_by_name (results : list CharacterResult) :
  summary_order results ≡ₚ results
  /\ StronglySorted (fun x y => String.leb (name x) (name y) = true)
       (summary_order results).
Proof.
  unfold summary_order. split; [apply sorted_perm|].
  apply sorted_StronglySorted.
  - intros x y. apply String.leb_total.
  - intros x y z. apply name_leb_trans.
Qed.

(** X19.  Reading the names back from the manifest that [main] builds gives
    the names of the outcomes, in the order of [results]. *)
Theorem X19_manifest_lists_results_in_order (total_time : Z)
    (results : list CharacterResult) :
  persisted_names (build_manifest total_time results) = name <$> results.
Proof. apply persisted_names_build_manifest. Qed.

End Leftovers.

(** ** The order of discovery *)

Section DiscoveryOrder.
Import Discovery Pipeline.

Lemma lex_leb_antisym (l1 l2 : list string) :
  Py.lex_leb l1 l2 = true -> Py.lex_leb l2 l1 = true -> l1 = l2.
Proof.
  revert l2. induction l1 as [|a l1 IH]; intros [|b l2]; simpl; try done.
  rewrite (String.compare_antisym b a).
  destruct (String.compare a b) eqn:Hab; simpl; try done.
  apply String.compare_eq_iff in Hab as ->.
  intros H1 H2. f_equal. by apply IH.
Qed.

Lemma path_leb_antisym (p q : Path) :
  anchored p = true -> anchored q = true ->
  Py.path_leb p q = true -> Py.path_leb q p = true -> p = q.
Proof.
  intros Hp Hq H1 H2. pose proof (lex_leb_antisym _ _ H1 H2) as Hkey.
  destruct p as [[] ps], q as [[] qs]; try done.
  cbn in Hkey. by injection Hkey as ->.
Qed.

(** Two sorted arrangements of the same elements are the same list, when
    the order tells the elements apart. *)
Lemma sorted_arrangement_unique {A : Type} (R : A -> A -> Prop) (l1 l2 : list A) :
  StronglySorted R l1 -> StronglySorted R l2 -> l1 ≡ₚ l2 ->
  (forall x y, x ∈ l1 -> y ∈ l1 -> R x y -> R y x -> x = y) ->
  l1 = l2.
Proof.
  intros Hs1. revert l2. induction Hs1 as [|x l1 Hs1 IH Hx]; intros l2 Hs2 Hperm Hanti.
  - by apply Permutation_nil_l in Hperm.
  - destruct Hs2 as [|y l2 Hs2 Hy].
    { by apply Permutation_nil_r in Hperm. }
    assert (x = y) as <-.
    { assert (Hxin : x ∈ y :: l2) by (rewrite <- Hperm; by left).
      assert (Hyin : y ∈ x :: l1) by (rewrite Hperm; by left).
      apply elem_of_cons in Hxin as [->|Hxin]; [done|].
      apply elem_of_cons in Hyin as [->|Hyin]; [done|].
      rewrite Forall_forall in Hx, Hy.
      apply Hanti; [by left|by right|by apply Hx|by apply Hy]. }
    f_equal. apply IH; [done|by apply Permutation_cons_inv in Hperm|].
    intros a b Ha Hb. apply Hanti; by right.
Qed.

Lemma rglob_anchored (tree : Tree) (root f : Path) :
  f ∈ rglob tree root -> anchored f = anchored root.
Proof.
  intros (_ & Hb & _)%elem_of_rglob. unfold below in Hb.
  apply andb_true_iff in Hb as [Ha _]. by apply bool_decide_eq_true in Ha.
Qed.

(** X20.  Below an absolute directory the result of [find_images] does not
    depend on the order in which the operating system lists the entries:
    sorting and filtering any arrangement of the same entries gives the
    same list. *)
Theorem X20_discovery_ignores_listing_order (tree : Tree) (root : Path)
    (listing : list Path) :
  is_file tree root = false ->
  anchored root = true ->
  listing ≡ₚ rglob tree root ->
  List.filter (is_image tree) (Py.sorted Py.path_leb listing)
  = find_images tree root.
Proof.
  intros Hfile Hroot Hperm. unfold find_images. rewrite Hfile. f_equal.
  apply (sorted_arrangement_unique (fun p q => Py.path_leb p q = true)).
  - apply sorted_StronglySorted; [apply path_leb_total|apply path_leb_trans].
  - apply sorted_StronglySorted; [apply path_leb_total|apply path_leb_trans].
  - by rewrite !(sorted_perm Py.path_leb).
  - intros p q Hp Hq. rewrite (sorted_perm Py.path_leb), Hperm in Hp, Hq.
    apply rglob_anchored in Hp, Hq. apply path_leb_antisym; congruence.
Qed.

Lemma X20_discovery_ignores_listing_order_witness :
  List.filter (is_image Toy.tree0)
    (Py.sorted Py.path_leb (reverse (rglob Toy.tree0 Toy.in_dir)))
  = find_images Toy.tree0 Toy.in_dir.
Proof.
  apply (X20_discovery_ignores_listing_order Toy.tree0 Toy.in_dir
           (reverse (rglob Toy.tree0 Toy.in_dir))).
  - vm_compute; reflexivity.
  - reflexivity.
  - apply reverse_Permutation.
Defined.

End DiscoveryOrder.

(** ** Examples on the small installation *)

Section ToyRuns.
Import Discovery Pipeline RunnerSpec.

Lemma X10_process_single_raises_only_outside_root_witness :
  let stray := mkPath true ["elsewhere"; "bat.png"] in
  exists e,
    process_single (Toy.engines []) stray Toy.batch_config 0 = (0, Raise e, [])
    /\ exn_type e = ValueError.
Proof.
  intros stray.
  destruct (X10_process_single_raises_only_outside_root (Toy.engines []) stray
              Toy.batch_config 0) as [[_ Hraises] Hkind].
  destruct Hraises as [e He].
  - intros [_ [k Hk]]. discriminate Hk.
  - exists e. destruct (Hkind e He) as [? ?]. by split.
Defined.

Lemma X11_stage_order_witness :
  exists d rg,
    [MeshStage; DecimateStage] = MeshStage :: d ++ rg
    /\ (d = [] \/ d = [DecimateStage]
                  /\ is_Some (max_faces (Toy.config (Some ["monsters"]) (Some 1))))
    /\ (rg = [] /\ "" = ""
        \/ rg = [RigStage]
           /\ skip_rig (Toy.config (Some ["monsters"]) (Some 1)) = false
           /\ is_Some (blender_bin (Toy.config (Some ["monsters"]) (Some 1)))
           /\ should_rig Toy.sword_png
                (rig_dirs (Toy.config (Some ["monsters"]) (Some 1))) = true).
Proof.
  apply (X11_stage_order (Toy.engines []) Toy.sword_png
           (Toy.config (Some ["monsters"]) (Some 1)) 0 2
           {| name := "sword"; image_path := "/in/items/sword.png";
              mesh_path := "/out/items/sword/0/mesh.obj"; rigged_path := "";
              mesh_time := 1; rig_time := 0; error := "" |}
           [MeshStage; DecimateStage]).
  vm_compute; reflexivity.
Defined.

Lemma toy_run_items :
  run_items Toy.bat_fails [Toy.sword_png; Toy.bat_png] Toy.batch_config 0
  = (3,
     Return
       [ {| name := "sword"; image_path := "/in/items/sword.png";
            mesh_path := "/out/items/sword/0/mesh.obj";
            rigged_path := "/out/items/sword/sword_rigged.fbx";
            mesh_time := 1; rig_time := 1; error := "" |};
         {| name := "bat"; image_path := "/in/monsters/bat.png";
            mesh_path := ""; rigged_path := ""; mesh_time := 0; rig_time := 0;
            error := "mesh generation: TripoSR failed for bat (exit code 1)" |} ]).
Proof. vm_compute; reflexivity. Qed.

Lemma X12_outcomes_follow_images_witness :
  Pipeline.image_path <$>
    [ {| name := "sword"; image_path := "/in/items/sword.png";
         mesh_path := "/out/items/sword/0/mesh.obj";
         rigged_path := "/out/items/sword/sword_rigged.fbx";
         mesh_time := 1; rig_time := 1; error := "" |};
      {| name := "bat"; image_path := "/in/monsters/bat.png";
         mesh_path := ""; rigged_path := ""; mesh_time := 0; rig_time := 0;
         error := "mesh generation: TripoSR failed for bat (exit code 1)" |} ]
  = str <$> [Toy.sword_png; Toy.bat_png].
Proof.
  destruct (X12_outcomes_follow_images Toy.bat_fails
              [Toy.sword_png; Toy.bat_png] Toy.batch_config 0 3 _ toy_run_items)
    as (H & _ & _).
  exact H.
Defined.

Lemma X13_main_always_writes_manifest_witness :
  exists w' results total_time,
    main Toy.bat_fails Toy.in_dir Toy.out_dir "fbx" 256 false false None None 2
      (Some "/usr/bin/blender") "cpu" [Toy.bat_png] 0
    = (w', Finished (summary_order results) (Toy.out_dir </> "manifest.json")
             (build_manifest total_time results))
    /\ Pipeline.image_path <$> results
       = str <$> (if 1 <? 2 then [Toy.bat_png]
                  else find_images (tree_of Toy.bat_fails 0) Toy.in_dir).
Proof.
  apply (X13_main_always_writes_manifest Toy.bat_fails Toy.in_dir Toy.out_dir
           "fbx" 256 false false None None 2 (Some "/usr/bin/blender") "cpu"
           [Toy.bat_png] 0).
  - vm_compute; reflexivity.
  - change (tree_of Toy.bat_fails 0) with Toy.tree0. rewrite toy_images.
    discriminate.
  - change (tree_of Toy.bat_fails 0) with Toy.tree0. rewrite toy_images.
    intros img ->%list_elem_of_singleton. right. left.
Defined.

Lemma X14_generate_mesh_returns_existing_file_witness :
  let mesh := mkPath true ["out"; "items"; "sword"; "0"; "mesh.obj"] in
  let co := mkPath true ["out"; "items"; "sword"] in
  exists_ (Toy.engines []) mesh 1 = true
  /\ (mesh = co </> "0" </> "mesh.obj"
      \/ mesh = co </> "0" </> "mesh.glb"
         /\ exists_ (Toy.engines []) (co </> "0" </> "mesh.obj") 1 = false).
Proof.
  intros mesh co.
  apply (X14_generate_mesh_returns_existing_file (Toy.engines []) Toy.sword_png
           co 256 false "cpu" 0 1 mesh).
  vm_compute; reflexivity.
Defined.

End ToyRuns.
